(** * Local Sales Finder: geospatial dispatch and live feed

    A shallow embedding of the notification dispatcher (the Cloud
    Function [onNewSaleEvent] of functions/index.js), of the client's
    geo utilities (src/utils/geoUtils.js) and of the [Home] page's map
    bounds, location tracker and snapshot listener
    (src/pages/Home.jsx), with the properties the specification states
    about them.

    Numbers.  JavaScript numbers are modelled as real numbers:
    arithmetic is exact, [Math.sin], [Math.cos], [Math.sqrt] and
    [Math.atan2] are the real functions, and the comparisons are the
    order of the reals.  A property that is absent ([undefined]) or
    [null] is [None].

    Effects.  The dispatcher runs in a small monad of state and
    rejection over the [tokens] collection group, the calls of
    [messaging.send] and the console.  The listener works on a store
    of arrays, so that the array it publishes and the array its
    suspended callbacks push to are one. *)

From Stdlib Require Import Reals Lra Lia ZArith.
From stdpp Require Import base option list sorting gmap strings pretty.

Open Scope R_scope.

(** The order and the equality of the reals are decided by the
    Standard Library's [Rle_dec], [Rlt_dec] and [Req_dec_T]. *)
#[global] Instance Rle_decision (x y : R) : Decision (x <= y) := Rle_dec x y.
#[global] Instance Rlt_decision (x y : R) : Decision (x < y) := Rlt_dec x y.
#[global] Instance Req_decision : EqDecision R := Req_dec_T.

(** ** The JavaScript built-ins the code calls *)

Module Js.

(** [Math.atan2(y, x)]: the angle of the point [(x, y)], in (-PI, PI]. *)
Definition atan2 (y x : R) : R :=
  if Rlt_dec 0 x then atan (y / x)
  else if Rlt_dec x 0 then
    (if Rle_dec 0 y then atan (y / x) + PI else atan (y / x) - PI)
  else if Rlt_dec 0 y then PI / 2
  else if Rlt_dec y 0 then - (PI / 2)
  else 0.

(** [Math.round(x)]: the integer nearest to [x], halves going up. *)
Definition round (x : R) : R := IZR (Int_part (x + / 2)).

(** [Math.max] and [Math.min] on two numbers. *)
Definition max (x y : R) : R := Rmax x y.
Definition min (x y : R) : R := Rmin x y.

(** Truthiness.  A number is falsy exactly when it is zero, a string
    when it is empty, and [undefined] and [null] always are. *)
Definition truthy_number (x : R) : bool :=
  if Req_dec_T x 0 then false else true.

Definition truthy_string (s : string) : bool :=
  if decide (s = "") then false else true.

Definition truthy {A} (t : A -> bool) (v : option A) : bool :=
  match v with
  | Some a => t a
  | None => false
  end.

(** An object, when present, is truthy. *)
Definition truthy_object {A} (v : option A) : bool := truthy (fun _ => true) v.

(** [Array.prototype.sort(compare)]: the sort is stable, [a] stays
    before [b] unless [compare(a, b) > 0].  A stable sort has one
    result only; it is written here as an insertion sort. *)
Fixpoint insert {A} (compare : A -> A -> R) (x : A) (xs : list A) : list A :=
  match xs with
  | [] => [x]
  | y :: ys =>
      if Rle_dec (compare x y) 0 then x :: y :: ys
      else y :: insert compare x ys
  end.

Definition sort {A} (compare : A -> A -> R) (xs : list A) : list A :=
  foldr (insert compare) [] xs.

(** What an [async] function settles to. *)
Inductive Error : Type :=
| TypeError (message : string)
| MessagingError (code : option string).

Inductive Completion (A : Type) : Type :=
| Fulfilled (value : A)
| Rejected (reason : Error).
Arguments Fulfilled {A} value.
Arguments Rejected {A} reason.

End Js.

(** A pair of coordinates in degrees, as stored under [location] and as
    held in the [coordinates] state. *)
Record GeoPoint : Type := mkGeoPoint {
  latitude : R;
  longitude : R
}.

(** ** src/utils/geoUtils.js *)

Module GeoUtils.

Definition toRad (value : R) : R := (value * PI) / 180.

Definition calculateDistance (lat1 lon1 lat2 lon2 : R) : R :=
  let R := 3959 in
  let dLat := toRad (lat2 - lat1) in
  let dLon := toRad (lon2 - lon1) in
  let a :=
    sin (dLat / 2) * sin (dLat / 2) +
    cos (toRad lat1) * cos (toRad lat2) * sin (dLon / 2) * sin (dLon / 2) in
  let c := 2 * Js.atan2 (sqrt a) (sqrt (1 - a)) in
  R * c.



End GeoUtils.

(** ** functions/index.js: the notification dispatcher *)

Module Functions.

Definition calculateDistance (lat1 lon1 lat2 lon2 : R) : R :=
  let R := 3963.0 in
  let lat1Rad := (lat1 * PI) / 180 in
  let lat2Rad := (lat2 * PI) / 180 in
  let latDiff := ((lat2 - lat1) * PI) / 180 in
  let lonDiff := ((lon2 - lon1) * PI) / 180 in
  let a :=
    sin (latDiff / 2) * sin (latDiff / 2) +
    cos lat1Rad *
      cos lat2Rad *
      sin (lonDiff / 2) *
      sin (lonDiff / 2) in
  let c := 2 * Js.atan2 (sqrt a) (sqrt (1 - a)) in
  R * c.

(** A document of a [tokens] sub-collection, [users/{uid}/tokens/{id}]. *)
Module TokenData.
Record t : Type := mk {
  token : string;
  location : option GeoPoint;
  searchRadius : option R
}.
End TokenData.

(** What [snap.data()] holds for a created [saleEvents/{eventId}]. *)
Module SaleData.
Record t : Type := mk {
  id : option string;
  title : string;
  startDate : string;
  location : option GeoPoint
}.
End SaleData.

(** [{ id: context.params.eventId, ...snap.data() }]: a field [id] of
    the document, when there is one, overrides the path parameter. *)
Module SaleEvent.
Record t : Type := mk {
  id : string;
  title : string;
  startDate : string;
  location : option GeoPoint
}.

Definition spread (eventId : string) (data : SaleData.t) : t :=
  {| id := default eventId (SaleData.id data);
     title := SaleData.title data;
     startDate := SaleData.startDate data;
     location := SaleData.location data |}.
End SaleEvent.

(** The message handed to [messaging.send]. *)
Module Message.
Record t : Type := mk {
  token : string;
  notification_title : string;
  notification_body : string;
  data_eventId : string;
  data_click_action : string;
  webpush_fcm_options_link : string
}.
End Message.

Inductive ConsoleLine : Type :=
| console_log (text : string) (token : string)
| console_error (text : string) (error : Js.Error).

(** The world the function runs in: the [tokens] collection group,
    keyed by owner and document id, the messages handed to
    [messaging.send] so far, and the console. *)
Record World : Type := mkWorld {
  tokens : gmap (string * string) TokenData.t;
  sendCalls : list Message.t;
  console : list ConsoleLine
}.

(** An [async] computation: it settles, and it changes the world. *)
Definition Async (A : Type) : Type := World -> Js.Completion A * World.

#[global] Instance Async_ret : MRet Async :=
  fun A a w => (Js.Fulfilled a, w).

#[global] Instance Async_bind : MBind Async :=
  fun A B f m w =>
    match m w with
    | (Js.Fulfilled a, w') => f a w'
    | (Js.Rejected e, w') => (Js.Rejected e, w')
    end.

#[global] Instance Async_throw : MThrow Js.Error Async :=
  fun A e w => (Js.Rejected e, w).

(** [try { body } catch (error) { handler }] *)
Definition tryCatch {A} (body : Async A) (handler : Js.Error -> Async A) : Async A :=
  fun w =>
    match body w with
    | (Js.Fulfilled a, w') => (Js.Fulfilled a, w')
    | (Js.Rejected e, w') => handler e w'
    end.

(** [for (const x of xs) { await body(x) }] *)
Fixpoint forOf {A} (xs : list A) (body : A -> Async unit) : Async unit :=
  match xs with
  | [] => mret tt
  | x :: xs' => body x ;; forOf xs' body
  end.

(** [await Promise.all(promises)]: every promise runs to its end, in
    the order the callbacks were started; the result is rejected
    with the first rejection, if there is one. *)
Fixpoint promiseAll (promises : list (Async unit)) : Async unit :=
  match promises with
  | [] => mret tt
  | p :: ps =>
      fun w =>
        let '(c, w1) := p w in
        let '(cs, w2) := promiseAll ps w1 in
        (match c with
         | Js.Fulfilled _ => cs
         | Js.Rejected e => Js.Rejected e
         end, w2)
  end.

(** Reading [o.latitude], [o.longitude] of a value [o] that may be
    [undefined]. *)
Definition property {A} (o : option GeoPoint) (name : string) (get : GeoPoint -> A) : Async A :=
  match o with
  | Some p => mret (get p)
  | None =>
      mthrow (Js.TypeError ("Cannot read properties of undefined (reading '" ++ name ++ "')"))
  end.

(** [x <= y] where [y] may be [undefined]: it is false then. *)
Definition le_number (x : R) (y : option R) : bool :=
  match y with
  | Some r => if Rle_dec x r then true else false
  | None => false
  end.

Definition consoleLog (text token : string) : Async unit :=
  fun w => (Js.Fulfilled tt,
            mkWorld (tokens w) (sendCalls w) (console w ++ [console_log text token])).

Definition consoleError (text : string) (error : Js.Error) : Async unit :=
  fun w => (Js.Fulfilled tt,
            mkWorld (tokens w) (sendCalls w) (console w ++ [console_error text error])).

(** [db.collectionGroup('tokens').get()] *)
Definition collectionGroup_tokens_get : Async (list (string * string * TokenData.t)) :=
  fun w => (Js.Fulfilled (map_to_list (tokens w)), w).

(** [db.collectionGroup('tokens').where('token', '==', token).get()] *)
Definition collectionGroup_tokens_where_token_get (token : string)
  : Async (list (string * string * TokenData.t)) :=
  fun w =>
    (Js.Fulfilled
       (map_to_list (filter (fun doc => TokenData.token doc.2 = token) (tokens w))),
     w).

(** [doc.ref.delete()] *)
Definition ref_delete (ref : string * string) : Async unit :=
  fun w => (Js.Fulfilled tt, mkWorld (delete ref (tokens w)) (sendCalls w) (console w)).

Definition error_code (error : Js.Error) : option string :=
  match error with
  | Js.MessagingError code => code
  | Js.TypeError _ => None
  end.

Section Collaborators.

(** [new Date(d).toLocaleDateString()] *)
Variable toLocaleDateString : string -> string.

(** The messaging service: what [messaging.send] settles to for a
    message. *)
Variable messaging : Message.t -> Js.Completion unit.

Definition messaging_send (message : Message.t) : Async unit :=
  fun w => (messaging message,
            mkWorld (tokens w) (sendCalls w ++ [message]) (console w)).

Definition message_for (token : string) (saleEvent : SaleEvent.t) : Message.t :=
  {| Message.token := token;
     Message.notification_title := "New Sale Event Nearby!";
     Message.notification_body :=
       SaleEvent.title saleEvent ++ " starting at " ++
       toLocaleDateString (SaleEvent.startDate saleEvent);
     Message.data_eventId := SaleEvent.id saleEvent;
     Message.data_click_action := "FLUTTER_NOTIFICATION_CLICK";
     Message.webpush_fcm_options_link := "/event/" ++ SaleEvent.id saleEvent |}.

Definition sendNotificationToUser (token : string) (saleEvent : SaleEvent.t) : Async unit :=
  let message := message_for token saleEvent in
  tryCatch
    (messaging_send message ;;
     consoleLog "Successfully sent notification to token:" token)
    (fun error =>
       consoleError "Error sending notification:" error ;;
       if decide (error_code error = Some "messaging/registration-token-not-registered")
       then
         tokenDocs ← collectionGroup_tokens_where_token_get token ;
         forOf tokenDocs (fun doc => ref_delete doc.1)
       else mret tt).

(** The callback of [tokenDocs.docs.map]. *)
Definition notifyIfNearby (saleEvent : SaleEvent.t)
    (tokenDoc : string * string * TokenData.t) : Async unit :=
  let tokenData := tokenDoc.2 in
  if negb (Js.truthy_object (TokenData.location tokenData)) ||
     negb (Js.truthy Js.truthy_number (TokenData.searchRadius tokenData))
  then mret tt
  else
    lat1 ← property (TokenData.location tokenData) "latitude" latitude ;
    lon1 ← property (TokenData.location tokenData) "longitude" longitude ;
    lat2 ← property (SaleEvent.location saleEvent) "latitude" latitude ;
    lon2 ← property (SaleEvent.location saleEvent) "longitude" longitude ;
    let distance := calculateDistance lat1 lon1 lat2 lon2 in
    if le_number distance (TokenData.searchRadius tokenData)
    then sendNotificationToUser (TokenData.token tokenData) saleEvent
    else mret tt.

Definition onNewSaleEvent (data : SaleData.t) (eventId : string) : Async unit :=
  let saleEvent := SaleEvent.spread eventId data in
  tokenDocs ← collectionGroup_tokens_get ;
  let notificationPromises := map (notifyIfNearby saleEvent) tokenDocs in
  promiseAll notificationPromises.

End Collaborators.

End Functions.

(** ** src/pages/Home.jsx: map bounds, location tracker, live feed *)

Module Home.

(** Leaflet's [L.latLngBounds(corner1, corner2)]: the rectangle
    spanned by two corners, each a pair (latitude, longitude). *)
Module L.
Record LatLngBounds : Type := mkBounds {
  southWest : R * R;
  northEast : R * R
}.

Definition latLngBounds (corner1 corner2 : R * R) : LatLngBounds :=
  {| southWest := (Rmin corner1.1 corner2.1, Rmin corner1.2 corner2.2);
     northEast := (Rmax corner1.1 corner2.1, Rmax corner1.2 corner2.2) |}.
End L.

Definition calculateMapBounds (center : GeoPoint) (radius : R) : L.LatLngBounds :=
  let milesPerDegreeAtEquator := 69.172 in
  let latOffset := radius / milesPerDegreeAtEquator in
  let latitudeRadians := latitude center * (PI / 180) in
  let lngOffset := radius / (milesPerDegreeAtEquator * cos latitudeRadians) in
  let minOffset := Js.max 0.001 (Js.min latOffset lngOffset) in
  L.latLngBounds
    (latitude center - minOffset, longitude center - minOffset)
    (latitude center + minOffset, longitude center + minOffset).

(** *** The location tracker *)

(** The [coordinates] state.  [identity] stands for the identity of
    the object held: an effect that depends on [coordinates] runs
    again exactly when it changes. *)
Record Tracker : Type := mkTracker {
  coordinates : option GeoPoint;
  identity : nat;
  locationLoading : bool;
  locationError : option string
}.

(** What a state updater returns: the previous value itself, or a
    new object. *)
Inductive Update (A : Type) : Type :=
| Prev
| Fresh (value : A).
Arguments Prev {A}.
Arguments Fresh {A} value.

(** The updater [onSuccess] passes to [setCoordinates]. *)
Definition onSuccess_updater (position : GeoPoint) (prev : option GeoPoint)
  : Update GeoPoint :=
  let latitude' := latitude position in
  let longitude' := longitude position in
  match prev with
  | None => Fresh (mkGeoPoint latitude' longitude')
  | Some p =>
      if Rlt_dec 0.1
           (GeoUtils.calculateDistance (latitude p) (longitude p) latitude' longitude')
      then Fresh (mkGeoPoint latitude' longitude')
      else Prev
  end.

Definition onSuccess (position : GeoPoint) (t : Tracker) : Tracker :=
  match onSuccess_updater position (coordinates t) with
  | Fresh c => mkTracker (Some c) (S (identity t)) false None
  | Prev => mkTracker (coordinates t) (identity t) false None
  end.

(** *** The live feed *)

(** A document of the [sales] collection, with its id. *)
Module Sale.
Record t : Type := mk {
  id : string;
  location : option GeoPoint;
  address : option string
}.
End Sale.

(** An element of [updatedSales]: [{...sale, distance, address}]. *)
Module Item.
Record t : Type := mk {
  sale : Sale.t;
  distance : R;
  address : option string
}.
Definition id (item : t) : string := Sale.id (sale item).
End Item.

(** A callback of [snapshot.forEach] suspended at
    [await getAddressFromCoordinates(...)]: the array it will push
    to, its [sale] and [distance], and the coordinates it asked the
    address of. *)
Record Suspended : Type := mkSuspended {
  updatedSales : nat;
  suspended_sale : Sale.t;
  suspended_distance : R;
  awaited : GeoPoint
}.

(** The page's state: the arrays allocated so far, the array the
    [sales] state refers to, and the suspended callbacks.  An array
    is named by its index in [arrays]; two names for one array see
    the same elements. *)
Record State : Type := mkState {
  arrays : list (list Item.t);
  sales : nat;
  loading : bool;
  error : option string;
  suspended : list Suspended;
  console : list string
}.

(** [useState([])] *)
Definition initial : State := mkState [[]] 0 true None [] [].

(** [array.push(item)] *)
Definition push (array : nat) (item : Item.t) (st : State) : State :=
  mkState (alter (fun xs => xs ++ [item]) array (arrays st))
          (sales st) (loading st) (error st) (suspended st) (console st).

(** [array.sort(compare)], in place. *)
Definition sort (array : nat) (compare : Item.t -> Item.t -> R) (st : State) : State :=
  mkState (alter (Js.sort compare) array (arrays st))
          (sales st) (loading st) (error st) (suspended st) (console st).

Definition suspend (k : Suspended) (st : State) : State :=
  mkState (arrays st) (sales st) (loading st) (error st)
          (suspended st ++ [k]) (console st).

Definition consoleLog (text : string) (st : State) : State :=
  mkState (arrays st) (sales st) (loading st) (error st)
          (suspended st) (console st ++ [text]).

Definition item_for (sale : Sale.t) (distance : R) (address : option string) : Item.t :=
  {| Item.sale := sale;
     Item.distance := Js.round (distance * 10) / 10;
     Item.address := address |}.

(** The callback of [snapshot.forEach], up to its first [await]. *)
Definition forEach_callback (coordinates : GeoPoint) (radius : R) (updatedSales : nat)
    (st : State) (sale : Sale.t) : State :=
  let saleLocation := Sale.location sale in
  if negb (Js.truthy Js.truthy_number (latitude <$> saleLocation)) ||
     negb (Js.truthy Js.truthy_number (longitude <$> saleLocation))
  then consoleLog ("Sale missing location data:" ++ Sale.id sale) st
  else
    match saleLocation with
    | None => st
    | Some saleLocation =>
        let distance :=
          GeoUtils.calculateDistance
            (latitude coordinates) (longitude coordinates)
            (latitude saleLocation) (longitude saleLocation) in
        if Rle_dec distance radius then
          if Js.truthy Js.truthy_string (Sale.address sale)
          then push updatedSales (item_for sale distance (Sale.address sale)) st
          else suspend (mkSuspended updatedSales sale distance saleLocation) st
        else st
    end.

Definition byDistance (a b : Item.t) : R := Item.distance a - Item.distance b.

(** The snapshot listener, up to its return. *)
Definition listener (coordinates : GeoPoint) (radius : R) (snapshot : list Sale.t)
    (st : State) : State :=
  let updatedSales := length (arrays st) in
  let st := mkState (arrays st ++ [[]]) (sales st) (loading st) (error st)
                    (suspended st) (console st) in
  let st := foldl (forEach_callback coordinates radius updatedSales) st snapshot in
  let st := sort updatedSales byDistance st in
  mkState (arrays st) updatedSales false (error st) (suspended st) (console st).

(** The collection the [sales] state shows. *)
Definition published (st : State) : list Item.t :=
  default [] (arrays st !! sales st).

Section Geocoder.

(** [getAddressFromCoordinates]: the address the reverse geocoder
    answers, [null] when it has none or fails. *)
Variable getAddressFromCoordinates : R -> R -> option string.

(** A suspended callback resumes: its [await] yields the address
    and it pushes its item. *)
Definition resume (k : Suspended) (st : State) : State :=
  let address :=
    getAddressFromCoordinates (latitude (awaited k)) (longitude (awaited k)) in
  push (updatedSales k)
       (item_for (suspended_sale k) (suspended_distance k) address)
       st.

(** The suspended callbacks resume, here in the order [ks]. *)
Definition resumeAll (ks : list Suspended) (st : State) : State :=
  let st := foldl (fun st k => resume k st) st ks in
  mkState (arrays st) (sales st) (loading st) (error st) [] (console st).

End Geocoder.

(** *** Zoom, the map boundary and the markers *)

Definition radiusOptions : list R := [5; 10; 25; 50; 100].

Definition calculateZoomLevel (radius : R) : Z :=
  if Rle_dec radius 5 then 14%Z
  else if Rle_dec radius 10 then 13%Z
  else if Rle_dec radius 25 then 12%Z
  else if Rle_dec radius 50 then 11%Z
  else if Rle_dec radius 100 then 10%Z
  else 10%Z.

Section MapBoundary.

(** Leaflet's distance in meters between two points, each a pair
    (latitude, longitude): [map.distance] and [LatLng.distanceTo]. *)
Variable distance : R * R -> R * R -> R.




End MapBoundary.

(** A marker of the map: its key, its position, the number it shows
    and the index of the list item a click on it scrolls to. *)
Record Marker : Type := mkMarker {
  key : string;
  position : R * R;
  number : nat;
  scrollToItem : nat
}.

Definition renderMarkers (sales : list Item.t) : list (option Marker) :=
  imap (fun index sale =>
          let saleLocation := Sale.location (Item.sale sale) in
          if negb (Js.truthy Js.truthy_number (latitude <$> saleLocation)) ||
             negb (Js.truthy Js.truthy_number (longitude <$> saleLocation))
          then None
          else
            match saleLocation with
            | Some saleLocation =>
                Some (mkMarker
                        ("marker-" ++ Item.id sale ++ "-" ++ pretty index)%string
                        (latitude saleLocation, longitude saleLocation)
                        (index + 1)
                        index)
            | None => None
            end)
       sales.

(** *** Regions *)

Definition regions : list (string * list string) :=
  [("Northeast", ["ME"; "NH"; "VT"; "MA"; "RI"; "CT"; "NY"; "NJ"; "PA"]);
   ("Midwest", ["OH"; "MI"; "IN"; "IL"; "WI"; "MN"; "IA"; "MO"; "ND"; "SD"; "NE"; "KS"]);
   ("South", ["DE"; "MD"; "DC"; "VA"; "WV"; "NC"; "SC"; "GA"; "FL"; "KY"; "TN"; "AL";
              "MS"; "AR"; "LA"; "OK"; "TX"]);
   ("West", ["MT"; "ID"; "WY"; "CO"; "NM"; "AZ"; "UT"; "NV"; "CA"; "OR"; "WA"; "AK"; "HI"])].

Definition getRegionFromState (stateCode : string) : option string :=
  fst <$> find (fun entry => bool_decide (stateCode ∈ entry.2)) regions.

(** *** The retry policy of the location tracker *)

(** A [GeolocationPositionError]. *)
Record PositionError : Type := mkPositionError {
  code : nat;
  message : string
}.

Definition PERMISSION_DENIED : nat := 1.
Definition POSITION_UNAVAILABLE : nat := 2.
Definition TIMEOUT : nat := 3.

Record PositionOptions : Type := mkPositionOptions {
  enableHighAccuracy : bool;
  timeout : Z;
  maximumAge : Z
}.

(** What one call of [fetchLocation] holds: the tracker's state, its
    [retryCount], the options of the calls of [getCurrentPosition] and
    of [watchPosition] it has made, and what it wrote to the console. *)
Record Fetch : Type := mkFetch {
  tracker : Tracker;
  retryCount : nat;
  getCurrentPosition : list PositionOptions;
  watchPosition : list PositionOptions;
  retries_logged : list string
}.

Definition options : PositionOptions := mkPositionOptions false 15000%Z 60000%Z.

Definition maxRetries : nat := 2.

Definition setLocationLoading (value : bool) (f : Fetch) : Fetch :=
  mkFetch (mkTracker (coordinates (tracker f)) (identity (tracker f)) value
                     (locationError (tracker f)))
          (retryCount f) (getCurrentPosition f) (watchPosition f) (retries_logged f).

Definition setLocationError (value : option string) (f : Fetch) : Fetch :=
  mkFetch (mkTracker (coordinates (tracker f)) (identity (tracker f))
                     (locationLoading (tracker f)) value)
          (retryCount f) (getCurrentPosition f) (watchPosition f) (retries_logged f).

Definition retryWithFallback (f : Fetch) : Fetch :=
  if decide (retryCount f < maxRetries)%nat then
    let retryCount' := S (retryCount f) in
    let retryOptions :=
      mkPositionOptions false 10000%Z (maximumAge options) in
    mkFetch (tracker f) retryCount'
            (getCurrentPosition f ++ [retryOptions]) (watchPosition f)
            (retries_logged f ++
               [("Retrying geolocation (attempt " ++ pretty retryCount' ++
                 " of " ++ pretty maxRetries ++ ")...")%string])
  else setLocationLoading false f.

Definition onError (error : PositionError) (f : Fetch) : Fetch :=
  let errorMessage := "Failed to get location. " in
  let '(errorMessage, f) :=
    if decide (code error = PERMISSION_DENIED) then
      ((errorMessage ++ "Location permission denied.")%string, setLocationLoading false f)
    else if decide (code error = POSITION_UNAVAILABLE) then
      ((errorMessage ++ "Location information unavailable.")%string, retryWithFallback f)
    else if decide (code error = TIMEOUT) then
      ((errorMessage ++ "Location request timed out.")%string, retryWithFallback f)
    else
      ((errorMessage ++ message error)%string, retryWithFallback f) in
  setLocationError (Some errorMessage) f.

(** [onSuccess], on the state of the call. *)
Definition onSuccess_in (position : GeoPoint) (f : Fetch) : Fetch :=
  mkFetch (onSuccess position (tracker f))
          (retryCount f) (getCurrentPosition f) (watchPosition f) (retries_logged f).

(** [fetchLocation], up to its return; [supported] says whether
    [navigator.geolocation] is there. *)
Definition fetchLocation (supported : bool) (t : Tracker) : Fetch :=
  if negb supported then
    mkFetch (mkTracker (coordinates t) (identity t) false
                       (Some "Geolocation is not supported by your browser"))
            0 [] [] []
  else mkFetch t 0 [options] [options] [].

(** *** The address form *)

Section AddressValidation.

(** [getCoordinatesFromAddress]: the coordinates the geocoder answers
    for an address, [null] when it has none or fails. *)
Variable getCoordinatesFromAddress : string -> option GeoPoint.


End AddressValidation.

(** *** Address components *)

(** The answer of the geocoding service, as far as the code reads it. *)
Module Geocoding.
Record AddressComponent : Type := mkComponent {
  types : option (list string);
  long_name : option string;
  short_name : option string
}.

(** [result.geometry?.location], with its [lat] and [lng]. *)
Record LatLngLiteral : Type := mkLatLng {
  lat : option R;
  lng : option R
}.

Record GeocoderResult : Type := mkResult {
  geometry_location : option LatLngLiteral;
  address_components : option (list AddressComponent);
  formatted_address : option string
}.

Record Response : Type := mkResponse {
  status : string;
  results : list GeocoderResult
}.
End Geocoding.

(** What [getAddressComponentsFromAddress] returns. *)
Module AddressInfo.
Record t : Type := mk {
  coordinates : GeoPoint;
  formattedAddress : option string;
  streetAddress : string;
  city : string;
  state : string;
  zipCode : string;
  country : string;
  region : option string
}.
End AddressInfo.

(** The variables the loops over the components assign. *)
Module Parts.
Record t : Type := mk {
  city : option string;
  state : string;
  stateCode : option string;
  zipCode : string;
  country : string;
  streetNumber : string;
  route : string
}.

(** [let city = ''; let state = ''; ...] *)
Definition initial : t := mk (Some "") "" (Some "") "" "" "" "".
End Parts.

(** [types.includes(name)] *)
Definition includes (types : list string) (name : string) : bool :=
  bool_decide (name ∈ types).

(** The callback of the first [addressComponents.forEach]. *)
Definition extractPart (parts : Parts.t) (component : Geocoding.AddressComponent)
  : Parts.t :=
  if negb (Js.truthy_object (Geocoding.types component)) ||
     negb (Js.truthy Js.truthy_string (Geocoding.long_name component))
  then parts
  else
    match Geocoding.types component, Geocoding.long_name component with
    | Some types, Some long_name =>
        if includes types "locality" ||
           (includes types "neighborhood" && includes types "political") ||
           includes types "sublocality" ||
           includes types "postal_town" ||
           includes types "administrative_area_level_3"
        then Parts.mk (Some long_name) (Parts.state parts) (Parts.stateCode parts)
                      (Parts.zipCode parts) (Parts.country parts)
                      (Parts.streetNumber parts) (Parts.route parts)
        else if includes types "administrative_area_level_1"
        then Parts.mk (Parts.city parts) long_name (Geocoding.short_name component)
                      (Parts.zipCode parts) (Parts.country parts)
                      (Parts.streetNumber parts) (Parts.route parts)
        else if includes types "postal_code"
        then Parts.mk (Parts.city parts) (Parts.state parts) (Parts.stateCode parts)
                      long_name (Parts.country parts)
                      (Parts.streetNumber parts) (Parts.route parts)
        else if includes types "country"
        then Parts.mk (Parts.city parts) (Parts.state parts) (Parts.stateCode parts)
                      (Parts.zipCode parts) long_name
                      (Parts.streetNumber parts) (Parts.route parts)
        else if includes types "street_number"
        then Parts.mk (Parts.city parts) (Parts.state parts) (Parts.stateCode parts)
                      (Parts.zipCode parts) (Parts.country parts)
                      long_name (Parts.route parts)
        else if includes types "route"
        then Parts.mk (Parts.city parts) (Parts.state parts) (Parts.stateCode parts)
                      (Parts.zipCode parts) (Parts.country parts)
                      (Parts.streetNumber parts) long_name
        else parts
    | _, _ => parts
    end.

(** The callback of the second [addressComponents.forEach], on the
    variable [city]: it reads [component.types.includes] only while
    [city] is falsy, and throws when [types] is missing. *)
Definition fallbackCity (city : Js.Completion (option string))
    (component : Geocoding.AddressComponent) : Js.Completion (option string) :=
  match city with
  | Js.Rejected error => Js.Rejected error
  | Js.Fulfilled city =>
      if negb (Js.truthy Js.truthy_string city) then
        match Geocoding.types component with
        | None =>
            Js.Rejected
              (Js.TypeError "Cannot read properties of undefined (reading 'includes')")
        | Some types =>
            if includes types "neighborhood" || includes types "sublocality_level_1"
            then Js.Fulfilled (Geocoding.long_name component)
            else Js.Fulfilled city
        end
      else Js.Fulfilled city
  end.

(** The body of the [try] of [getAddressComponentsFromAddress], from
    the parsed answer on. *)
Definition addressInfoOf (data : Geocoding.Response)
  : Js.Completion (option AddressInfo.t) :=
  match Geocoding.results data with
  | result :: _ =>
      if bool_decide (Geocoding.status data = "OK") then
        let location := Geocoding.geometry_location result in
        if negb (Js.truthy Js.truthy_number (location ≫= Geocoding.lat)) ||
           negb (Js.truthy Js.truthy_number (location ≫= Geocoding.lng))
        then Js.Fulfilled None
        else
          let addressComponents := default [] (Geocoding.address_components result) in
          if bool_decide (length addressComponents = 0%nat) then Js.Fulfilled None
          else
            let parts := foldl extractPart Parts.initial addressComponents in
            let city :=
              if negb (Js.truthy Js.truthy_string (Parts.city parts))
              then foldl fallbackCity (Js.Fulfilled (Parts.city parts)) addressComponents
              else Js.Fulfilled (Parts.city parts) in
            match city with
            | Js.Rejected error => Js.Rejected error
            | Js.Fulfilled city =>
                if negb (Js.truthy Js.truthy_string city) ||
                   negb (Js.truthy Js.truthy_string (Parts.stateCode parts))
                then Js.Fulfilled None
                else
                  match location ≫= Geocoding.lat, location ≫= Geocoding.lng,
                        city, Parts.stateCode parts with
                  | Some lat, Some lng, Some city, Some stateCode =>
                      Js.Fulfilled
                        (Some
                           (AddressInfo.mk
                              (mkGeoPoint lat lng)
                              (Geocoding.formatted_address result)
                              (if Js.truthy_string (Parts.streetNumber parts) &&
                                  Js.truthy_string (Parts.route parts)
                               then (Parts.streetNumber parts ++ " " ++
                                     Parts.route parts)%string
                               else "")
                              city stateCode (Parts.zipCode parts)
                              (Parts.country parts)
                              (getRegionFromState stateCode)))
                  | _, _, _, _ => Js.Fulfilled None
                  end
            end
      else Js.Fulfilled None
  | [] => Js.Fulfilled None
  end.

Section GeocodingService.

(** The geocoding service: the parsed answer to a request for an
    address, or nothing when [fetch] or [response.json()] throws. *)
Variable geocode : string -> option Geocoding.Response.

(** [getAddressComponentsFromAddress]: what it returns, and whether it
    wrote an error to the console. *)
Definition getAddressComponentsFromAddress (searchAddress : string)
  : option AddressInfo.t * bool :=
  match geocode searchAddress with
  | None => (None, true)
  | Some data =>
      match addressInfoOf data with
      | Js.Fulfilled addressInfo => (addressInfo, false)
      | Js.Rejected _ => (None, true)
      end
  end.

End GeocodingService.

(** *** The list of sales *)

Section Display.

(** How a number is written in a template literal. *)
Variable toString : R -> string.

(** [memoizedSales]: for each sale [{...sale, distanceDisplay}], here
    the sale with its [distanceDisplay]. *)
Definition memoizedSales (sales : list Item.t) : list (Item.t * string) :=
  map (fun sale =>
         (sale,
          (toString (Item.distance sale) ++ " " ++
           (if decide (Item.distance sale = 1) then "mile" else "miles") ++
           " away")%string))
      sales.

End Display.

End Home.

(** ** src/contexts/ThemeContext.jsx *)

Module Theme.

(** What the theme reads and writes in the browser: the item [theme]
    of the local storage, the system's preference for a dark scheme,
    and whether the document element has the class [dark]. *)
Record Browser : Type := mkBrowser {
  localStorage_theme : option string;
  prefers_color_scheme_dark : bool;
  documentElement_dark : bool
}.

(** The initializer of the [darkMode] state. *)
Definition initialDarkMode (browser : Browser) : bool :=
  let savedTheme := localStorage_theme browser in
  if Js.truthy Js.truthy_string savedTheme
  then bool_decide (savedTheme = Some "dark")
  else prefers_color_scheme_dark browser.

(** The effect that runs when [darkMode] changes. *)
Definition storeTheme (darkMode : bool) (browser : Browser) : Browser :=
  mkBrowser (Some (if darkMode then "dark" else "light"))
            (prefers_color_scheme_dark browser)
            (if darkMode then true else false).

Definition toggleTheme (prev : bool) : bool := negb prev.

End Theme.


(** ** src/utils/locationUtils.js *)

Module LocationUtils.

(** The answer of the reverse geocoding service, as far as
    [getCurrentLocation] reads it: [data.address] and six of its
    fields, each a string or missing. *)
Module Nominatim.

Record Address : Type := mkAddress {
  house_number : option string;
  road : option string;
  suburb : option string;
  city : option string;
  town : option string;
  state : option string
}.

Record Response : Type := mkResponse {
  address : option Address
}.

End Nominatim.

Module Location.

Record t : Type := mk {
  latitude : R;
  longitude : R;
  address : string;
  rawAddress : Nominatim.Address
}.

End Location.

(** [a || b] on two strings that may be missing. *)
Definition or_else (a b : option string) : option string :=
  if Js.truthy Js.truthy_string a then a else b.

(** [if (part) locationParts.push(part)]. *)
Definition pushPart (locationParts : list string) (part : option string) : list string :=
  match part with
  | Some s => if Js.truthy_string s then locationParts ++ [s] else locationParts
  | None => locationParts
  end.

(** The five values the success callback looks at, in its order. *)
Definition candidates (address : Nominatim.Address) : list (option string) :=
  [Nominatim.house_number address;
   Nominatim.road address;
   Nominatim.suburb address;
   or_else (Nominatim.city address) (Nominatim.town address);
   Nominatim.state address].

Definition locationParts (address : Nominatim.Address) : list string :=
  foldl pushPart [] (candidates address).

Section Browser.

(** The reverse geocoding service: the parsed answer for a latitude
    and a longitude, or nothing when [fetch] or [response.json()]
    throws. *)
Variable reverse : R -> R -> option Nominatim.Response.

(** [getCurrentLocation], given whether the browser has
    [navigator.geolocation] and what [getCurrentPosition] calls back
    with: the code of a position error or the coordinates of a
    position. The promise is rejected with an [Error] of the message
    on the left, or resolved with the location on the right. *)
Definition getCurrentLocation (supported : bool) (answer : nat + R * R)
  : string + Location.t :=
  if negb supported then inl "Geolocation is not supported by your browser"
  else
    match answer with
    | inl code =>
        if bool_decide (code = 1%nat)
        then inl "Please allow location access to create a sale"
        else inl "Error getting your location"
    | inr (latitude, longitude) =>
        match reverse latitude longitude ≫= Nominatim.address with
        | None => inl "Failed to get location details"
        | Some address =>
            inr (Location.mk latitude longitude
                             (String.concat ", " (locationParts address))
                             address)
        end
    end.

End Browser.

End LocationUtils.

(** ** src/contexts/AuthContext.jsx *)

Module Auth.

(** A Firebase user, as far as the provider reads it. *)
Record User : Type := mkUser {
  uid : string;
  user_email : option string
}.

(** A document of the collection [users], with the fields the
    application writes: [isAdmin] is a boolean, or missing. *)
Record UserDoc : Type := mkUserDoc {
  email : option string;
  isAdmin : option bool;
  createdAt : Z
}.

(** The state of the provider, the collection [users], the number of
    requests made to the store so far and the errors written to the
    console. *)
Record State : Type := mkState {
  currentUser : option User;
  loading : bool;
  isAdmin_state : bool;
  error : option string;
  users : gmap string UserDoc;
  requests : nat;
  console : list string
}.

Definition initial (users : gmap string UserDoc) : State :=
  mkState None true false None users 0 [].

Definition setCurrentUser (user : option User) (st : State) : State :=
  mkState user (loading st) (isAdmin_state st) (error st)
          (users st) (requests st) (console st).

Definition setLoading (value : bool) (st : State) : State :=
  mkState (currentUser st) value (isAdmin_state st) (error st)
          (users st) (requests st) (console st).

Definition setIsAdmin (value : bool) (st : State) : State :=
  mkState (currentUser st) (loading st) value (error st)
          (users st) (requests st) (console st).

Definition setError (value : option string) (st : State) : State :=
  mkState (currentUser st) (loading st) (isAdmin_state st) value
          (users st) (requests st) (console st).

Definition console_error (text : string) (st : State) : State :=
  mkState (currentUser st) (loading st) (isAdmin_state st) (error st)
          (users st) (requests st) (text :: console st).

Section Firebase.

(** Whether the n-th request to the store throws, and with which
    message; a request that throws changes nothing in the store. *)
Variable fails : nat -> option string.

(** [new Date()], at the n-th request. *)
Variable newDate : nat -> Z.

(** [createUserWithEmailAndPassword] and [signInWithPopup]: the user
    of the credential, or the message of the error thrown; the user of
    a popup credential may be null. *)
Variable createUserWithEmailAndPassword : string -> string -> string + User.
Variable signInWithPopup : string + option User.

(** [getDoc(doc(db, 'users', uid))]: the data of the document, or
    nothing when it does not exist. *)
Definition getDoc (uid : string) (st : State) : (string + option UserDoc) * State :=
  let st' := mkState (currentUser st) (loading st) (isAdmin_state st) (error st)
                     (users st) (S (requests st)) (console st) in
  match fails (requests st) with
  | Some message => (inl message, st')
  | None => (inr (users st !! uid), st')
  end.

(** [setDoc(doc(db, 'users', uid), data)]. *)
Definition setDoc (uid : string) (data : UserDoc) (st : State) : (string + unit) * State :=
  match fails (requests st) with
  | Some message =>
      (inl message,
       mkState (currentUser st) (loading st) (isAdmin_state st) (error st)
               (users st) (S (requests st)) (console st))
  | None =>
      (inr (),
       mkState (currentUser st) (loading st) (isAdmin_state st) (error st)
               (<[uid := data]> (users st)) (S (requests st)) (console st))
  end.

Definition checkAdminStatus (uid : string) (st : State) : State :=
  if negb (Js.truthy_string uid) then setIsAdmin false st
  else
    match getDoc uid st with
    | (inr (Some data), st) => setIsAdmin (default false (isAdmin data)) st
    | (inr None, st) => setIsAdmin false st
    | (inl _, st) => setIsAdmin false (console_error "Error checking admin status:" st)
    end.

(** The document that [signup] and [loginWithGoogle] write for a
    user. *)
Definition newUserDoc (user : User) (st : State) : UserDoc :=
  mkUserDoc (user_email user) (Some false) (newDate (requests st)).

Definition signup (email password : string) (st : State) : (string + User) * State :=
  match createUserWithEmailAndPassword email password with
  | inl message => (inl message, console_error "Error during signup:" st)
  | inr user =>
      match setDoc (uid user) (newUserDoc user st) st with
      | (inl message, st) => (inl message, console_error "Error during signup:" st)
      | (inr _, st) => (inr user, st)
      end
  end.

(** The [catch] and the [finally] of [loginWithGoogle]. *)
Definition loginWithGoogle_catch (message : string) (st : State)
  : (string + option User) * State :=
  (inl message,
   setLoading false
     (setError (Some message) (console_error "Error during Google sign-in:" st))).

Definition loginWithGoogle (st : State) : (string + option User) * State :=
  let st := setLoading true (setError None st) in
  match signInWithPopup with
  | inl message => loginWithGoogle_catch message st
  | inr None => (inr None, setLoading false st)
  | inr (Some user) =>
      match getDoc (uid user) st with
      | (inl message, st) => loginWithGoogle_catch message st
      | (inr (Some _), st) =>
          (inr (Some user), setLoading false (checkAdminStatus (uid user) st))
      | (inr None, st) =>
          match setDoc (uid user) (newUserDoc user st) st with
          | (inl message, st) => loginWithGoogle_catch message st
          | (inr _, st) =>
              (inr (Some user), setLoading false (checkAdminStatus (uid user) st))
          end
      end
  end.

(** [logout], up to the call of [signOut]. *)
Definition logout (st : State) : State := setIsAdmin false st.

(** The observer given to [onAuthStateChanged]. *)
Definition onAuthStateChanged_observer (user : option User) (st : State) : State :=
  setLoading false
    match user with
    | Some user => checkAdminStatus (uid user) (setCurrentUser (Some user) st)
    | None => setIsAdmin false (setCurrentUser None st)
    end.

(** [{!loading && children}]: whether the children are rendered. *)
Definition renders_children (st : State) : bool := negb (loading st).

End Firebase.

End Auth.
(** ** Vocabulary of the specification *)

(** The wording of the dispatcher's rule: a registration is to be
    notified of a listing at [p] when it has a location and a radius
    and the distance between the two is at most the radius. *)
Definition within_radius (p : GeoPoint) (registration : Functions.TokenData.t) : bool :=
  match Functions.TokenData.location registration,
        Functions.TokenData.searchRadius registration with
  | Some loc, Some radius =>
      bool_decide
        (Functions.calculateDistance (latitude loc) (longitude loc)
                                     (latitude p) (longitude p) <= radius)
  | _, _ => false
  end.

(** The code of a delivery failure that says the endpoint is gone. *)
Definition endpoint_invalid : string := "messaging/registration-token-not-registered".

(** The test [!tokenData.location || !tokenData.searchRadius], negated. *)
Definition passes_guard (registration : Functions.TokenData.t) : bool :=
  Js.truthy_object (Functions.TokenData.location registration) &&
  Js.truthy Js.truthy_number (Functions.TokenData.searchRadius registration).

(** The two tests of the fan-out callback together, for a listing at [p]. *)
Definition sends (p : GeoPoint) (registration : Functions.TokenData.t) : bool :=
  passes_guard registration &&
  match Functions.TokenData.location registration with
  | Some loc =>
      Functions.le_number
        (Functions.calculateDistance (latitude loc) (longitude loc)
                                     (latitude p) (longitude p))
        (Functions.TokenData.searchRadius registration)
  | None => false
  end.

(** The world after one call of [sendNotificationToUser]. *)
Definition after_send (toLocaleDateString : string -> string)
    (messaging : Functions.Message.t -> Js.Completion unit)
    (token : string) (saleEvent : Functions.SaleEvent.t) (w : Functions.World)
  : Functions.World :=
  let message := Functions.message_for toLocaleDateString token saleEvent in
  match messaging message with
  | Js.Fulfilled _ =>
      Functions.mkWorld
        (Functions.tokens w) (Functions.sendCalls w ++ [message])
        (Functions.console w ++
           [Functions.console_log "Successfully sent notification to token:" token])
  | Js.Rejected error =>
      Functions.mkWorld
        (if decide (Functions.error_code error = Some endpoint_invalid)
         then filter (fun doc => Functions.TokenData.token doc.2 <> token)
                     (Functions.tokens w)
         else Functions.tokens w)
        (Functions.sendCalls w ++ [message])
        (Functions.console w ++
           [Functions.console_error "Error sending notification:" error])
  end.

(** The world after the fan-out over [docs], for a listing at [p]. *)
Definition after_fanout (toLocaleDateString : string -> string)
    (messaging : Functions.Message.t -> Js.Completion unit)
    (p : GeoPoint) (saleEvent : Functions.SaleEvent.t)
    (docs : list (string * string * Functions.TokenData.t)) (w : Functions.World)
  : Functions.World :=
  foldl (fun w doc =>
           if sends p doc.2
           then after_send toLocaleDateString messaging
                           (Functions.TokenData.token doc.2) saleEvent w
           else w)
        w docs.

(** Whether the messaging service answers with the endpoint-invalid
    failure. *)
Definition answers_invalid (answer : Js.Completion unit) : bool :=
  match answer with
  | Js.Rejected error =>
      bool_decide (Functions.error_code error = Some endpoint_invalid)
  | Js.Fulfilled _ => false
  end.

(** The tokens whose delivery, in the fan-out over [docs] for a listing
    at [p], is answered with the endpoint-invalid failure. *)
Definition pruned (toLocaleDateString : string -> string)
    (messaging : Functions.Message.t -> Js.Completion unit)
    (p : GeoPoint) (saleEvent : Functions.SaleEvent.t)
    (docs : list (string * string * Functions.TokenData.t)) : list string :=
  omap (fun doc =>
          let token := Functions.TokenData.token doc.2 in
          if sends p doc.2 &&
             answers_invalid
               (messaging (Functions.message_for toLocaleDateString token saleEvent))
          then Some token else None)
       docs.

(** The error the callback throws when the listing has no [location]. *)
Definition missing_location : Js.Error :=
  Js.TypeError "Cannot read properties of undefined (reading 'latitude')".

(** A store with one registration, ten miles of radius, and two
    listings created at the registration's own location: one with a
    [location], one without. *)
Definition registration_1 : Functions.TokenData.t :=
  Functions.TokenData.mk "token-1" (Some (mkGeoPoint 40 (-75))) (Some 10).

Definition world_1 : Functions.World :=
  Functions.mkWorld {[ ("user-1", "token-1") := registration_1 ]} [] [].

Definition listing_located : Functions.SaleData.t :=
  Functions.SaleData.mk None "Yard sale" "2025-06-01" (Some (mkGeoPoint 40 (-75))).

Definition listing_unlocated : Functions.SaleData.t :=
  Functions.SaleData.mk None "Yard sale" "2025-06-01" None.

(** The feed's distance from the tracked location to a point. *)
Definition feed_distance (coordinates p : GeoPoint) : R :=
  GeoUtils.calculateDistance (latitude coordinates) (longitude coordinates)
                             (latitude p) (longitude p).

(** The location of a listing that passes the listener's two tests:
    both coordinates truthy, and the distance at most the radius. *)
Definition retained_location (coordinates : GeoPoint) (radius : R) (sale : Home.Sale.t)
  : option GeoPoint :=
  match Home.Sale.location sale with
  | Some p =>
      if Js.truthy_number (latitude p) && Js.truthy_number (longitude p) &&
         bool_decide (feed_distance coordinates p <= radius)
      then Some p else None
  | None => None
  end.

(** The item the callback pushes before the listener returns: that of
    a retained listing with a stored address. *)
Definition pushed_now (coordinates : GeoPoint) (radius : R) (sale : Home.Sale.t)
  : option Home.Item.t :=
  match retained_location coordinates radius sale with
  | Some p =>
      if Js.truthy Js.truthy_string (Home.Sale.address sale)
      then Some (Home.item_for sale (feed_distance coordinates p) (Home.Sale.address sale))
      else None
  | None => None
  end.

(** The callback left suspended: that of a retained listing without a
    stored address. *)
Definition left_suspended (coordinates : GeoPoint) (radius : R) (updatedSales : nat)
    (sale : Home.Sale.t) : option Home.Suspended :=
  match retained_location coordinates radius sale with
  | Some p =>
      if Js.truthy Js.truthy_string (Home.Sale.address sale)
      then None
      else Some (Home.mkSuspended updatedSales sale (feed_distance coordinates p) p)
  | None => None
  end.

(** The order the specification asks of the published collection:
    ascending by distance from the tracked location, and by listing id
    where distances are equal. *)
Definition distance_from (coordinates : GeoPoint) (item : Home.Item.t) : R :=
  match Home.Sale.location (Home.Item.sale item) with
  | Some p => feed_distance coordinates p
  | None => 0
  end.

Definition by_distance_then_id (coordinates : GeoPoint) (a b : Home.Item.t) : Prop :=
  distance_from coordinates a < distance_from coordinates b \/
  (distance_from coordinates a = distance_from coordinates b /\
   String.leb (Home.Item.id a) (Home.Item.id b) = true).

(** The content the specification asks of the published collection:
    a listing is in it exactly when it has coordinates and lies within
    the radius. *)
Definition has_coordinates_within (coordinates : GeoPoint) (radius : R)
    (sale : Home.Sale.t) : Prop :=
  exists p, Home.Sale.location sale = Some p /\ feed_distance coordinates p <= radius.

(** The rectangle the specification asks of the bounds estimator: the
    circle inscribed, that is the latitude offset to the north and
    south and the longitude offset, corrected by the cosine of the
    latitude, to the east and west, neither below the floor. *)
Definition inscribes_circle (center : GeoPoint) (radius : R) (b : Home.L.LatLngBounds)
  : Prop :=
  let latOffset := radius / 69.172 in
  let lngOffset := radius / (69.172 * cos (latitude center * (PI / 180))) in
  Home.L.southWest b =
    (latitude center - Rmax 0.001 latOffset, longitude center - Rmax 0.001 lngOffset) /\
  Home.L.northEast b =
    (latitude center + Rmax 0.001 latOffset, longitude center + Rmax 0.001 lngOffset).

(** A viewer at 40 N 75 W and listings at the same place. *)
Definition here : GeoPoint := mkGeoPoint 40 (-75).

Definition sale_a : Home.Sale.t := Home.Sale.mk "a" (Some here) (Some "1 Main St").
Definition sale_b : Home.Sale.t := Home.Sale.mk "b" (Some here) (Some "2 Main St").
Definition sale_unaddressed : Home.Sale.t := Home.Sale.mk "c" (Some here) None.

(** Two listings due north of the viewer, a thousandth and half a
    thousandth of PI miles away. *)
Definition sale_far : Home.Sale.t :=
  Home.Sale.mk "a" (Some (mkGeoPoint (40 + 9 / 197950) (-75))) (Some "1 Main St").
Definition sale_near : Home.Sale.t :=
  Home.Sale.mk "b" (Some (mkGeoPoint (40 + 9 / 395900) (-75))) (Some "2 Main St").

(** The item a suspended callback pushes when it resumes. *)
Definition resumed_item (getAddressFromCoordinates : R -> R -> option string)
    (k : Home.Suspended) : Home.Item.t :=
  Home.item_for (Home.suspended_sale k) (Home.suspended_distance k)
    (getAddressFromCoordinates (latitude (Home.awaited k)) (longitude (Home.awaited k))).

(** The callbacks a run of the listener on [st] leaves suspended. *)
Definition newly_suspended (coordinates : GeoPoint) (radius : R)
    (snapshot : list Home.Sale.t) (st : Home.State) : list Home.Suspended :=
  drop (length (Home.suspended st))
       (Home.suspended (Home.listener coordinates radius snapshot st)).

(** A second registration, and a messaging service that finds every
    endpoint invalid. *)
Definition registration_2 : Functions.TokenData.t :=
  Functions.TokenData.mk "token-2" (Some (mkGeoPoint 40 (-75))) (Some 5).

Definition every_endpoint_invalid (message : Functions.Message.t) : Js.Completion unit :=
  Js.Rejected (Js.MessagingError (Some endpoint_invalid)).

(** What the browser delivers to the callbacks of [fetchLocation]: a
    position, or an error. *)
Inductive GeolocationEvent : Type :=
| Fix (position : GeoPoint)
| Failure (error : Home.PositionError).

Definition deliver (f : Home.Fetch) (event : GeolocationEvent) : Home.Fetch :=
  match event with
  | Fix position => Home.onSuccess_in position f
  | Failure error => Home.onError error f
  end.

(** The errors that call for a retry: all but a denied permission. *)
Definition calls_for_retry (event : GeolocationEvent) : bool :=
  match event with
  | Fix _ => false
  | Failure error => negb (bool_decide (Home.code error = Home.PERMISSION_DENIED))
  end.



(** An answer of the geocoding service for a street address of
    Philadelphia. *)
Definition philadelphia_answer : Home.Geocoding.Response :=
  Home.Geocoding.mkResponse "OK"
    [Home.Geocoding.mkResult
       (Some (Home.Geocoding.mkLatLng (Some 39.95) (Some (-75.16))))
       (Some
          [Home.Geocoding.mkComponent (Some ["street_number"]) (Some "123") (Some "123");
           Home.Geocoding.mkComponent (Some ["route"]) (Some "Main Street") (Some "Main St");
           Home.Geocoding.mkComponent (Some ["locality"; "political"])
                                      (Some "Philadelphia") (Some "Philadelphia");
           Home.Geocoding.mkComponent (Some ["administrative_area_level_1"; "political"])
                                      (Some "Pennsylvania") (Some "PA");
           Home.Geocoding.mkComponent (Some ["country"; "political"])
                                      (Some "United States") (Some "US");
           Home.Geocoding.mkComponent (Some ["postal_code"]) (Some "19106") (Some "19106")])
       (Some "123 Main St, Philadelphia, PA 19106, USA")].


(** An answer of the reverse geocoding service with a road, a town
    and a state. *)
Definition market_street : LocationUtils.Nominatim.Address :=
  LocationUtils.Nominatim.mkAddress None (Some "Market Street") None
                                    None (Some "Philadelphia") (Some "Pennsylvania").

(** The collection [users] with one administrator. *)
Definition users_1 : gmap string Auth.UserDoc :=
  {[ "u1" := Auth.mkUserDoc (Some "admin@example.org") (Some true) 0 ]}.

(** The documents with [isAdmin] set that [users'] has are documents
    of [users]. *)
Definition no_new_admin (users users' : gmap string Auth.UserDoc) : Prop :=
  forall uid data,
    users' !! uid = Some data -> Auth.isAdmin data = Some true ->
    users !! uid = Some data.
(** ** Properties of the distance functions *)

(** The haversine term [a], which both functions compute alike. *)
Definition hav (lat1 lon1 lat2 lon2 : R) : R :=
  sin (GeoUtils.toRad (lat2 - lat1) / 2) * sin (GeoUtils.toRad (lat2 - lat1) / 2) +
  cos (GeoUtils.toRad lat1) * cos (GeoUtils.toRad lat2) *
    sin (GeoUtils.toRad (lon2 - lon1) / 2) * sin (GeoUtils.toRad (lon2 - lon1) / 2).

Lemma client_distance_hav lat1 lon1 lat2 lon2 :
  GeoUtils.calculateDistance lat1 lon1 lat2 lon2 =
  3959 * (2 * Js.atan2 (sqrt (hav lat1 lon1 lat2 lon2))
                       (sqrt (1 - hav lat1 lon1 lat2 lon2))).
Proof. reflexivity. Qed.

Lemma server_distance_hav lat1 lon1 lat2 lon2 :
  Functions.calculateDistance lat1 lon1 lat2 lon2 =
  3963 * (2 * Js.atan2 (sqrt (hav lat1 lon1 lat2 lon2))
                       (sqrt (1 - hav lat1 lon1 lat2 lon2))).
Proof.
  unfold Functions.calculateDistance, hav, GeoUtils.toRad.
  replace 3963.0 with 3963 by lra. reflexivity.
Qed.

Lemma toRad_opp x : GeoUtils.toRad (- x) = - GeoUtils.toRad x.
Proof. unfold GeoUtils.toRad. lra. Qed.

Lemma hav_sym lat1 lon1 lat2 lon2 :
  hav lat1 lon1 lat2 lon2 = hav lat2 lon2 lat1 lon1.
Proof.
  unfold hav.
  replace (lat1 - lat2) with (- (lat2 - lat1)) by lra.
  replace (lon1 - lon2) with (- (lon2 - lon1)) by lra.
  rewrite !toRad_opp.
  replace (- GeoUtils.toRad (lat2 - lat1) / 2)
    with (- (GeoUtils.toRad (lat2 - lat1) / 2)) by lra.
  replace (- GeoUtils.toRad (lon2 - lon1) / 2)
    with (- (GeoUtils.toRad (lon2 - lon1) / 2)) by lra.
  rewrite !sin_neg. ring.
Qed.

Lemma hav_refl lat lon : hav lat lon lat lon = 0.
Proof.
  unfold hav, GeoUtils.toRad.
  replace ((lat - lat) * PI / 180 / 2) with 0 by lra.
  replace ((lon - lon) * PI / 180 / 2) with 0 by lra.
  rewrite sin_0. ring.
Qed.

Lemma atan2_0_1 : Js.atan2 0 1 = 0.
Proof.
  unfold Js.atan2. destruct (Rlt_dec 0 1) as [_|H]; [|lra].
  replace (0 / 1) with 0 by lra. apply atan_0.
Qed.

(** C9: both distance functions are symmetric in their two points and
    give 0 for a point and itself. *)
Theorem distance_symmetric_and_zero_on_diagonal :
  (forall lat1 lon1 lat2 lon2,
      GeoUtils.calculateDistance lat1 lon1 lat2 lon2 =
      GeoUtils.calculateDistance lat2 lon2 lat1 lon1) /\
  (forall lat lon, GeoUtils.calculateDistance lat lon lat lon = 0) /\
  (forall lat1 lon1 lat2 lon2,
      Functions.calculateDistance lat1 lon1 lat2 lon2 =
      Functions.calculateDistance lat2 lon2 lat1 lon1) /\
  (forall lat lon, Functions.calculateDistance lat lon lat lon = 0).
Proof.
  repeat split; intros.
  - rewrite !client_distance_hav, (hav_sym lat1 lon1 lat2 lon2). reflexivity.
  - rewrite client_distance_hav, hav_refl, Rminus_0_r, sqrt_0, sqrt_1, atan2_0_1. ring.
  - rewrite !server_distance_hav, (hav_sym lat1 lon1 lat2 lon2). reflexivity.
  - rewrite server_distance_hav, hav_refl, Rminus_0_r, sqrt_0, sqrt_1, atan2_0_1. ring.
Qed.

(** For an angle [t] of the first quadrant, [atan2] of the two square
    roots the haversine formula takes gives the angle back. *)
Lemma atan2_sqrt_sin t :
  0 <= t < PI / 2 ->
  Js.atan2 (sqrt (sin t * sin t)) (sqrt (1 - sin t * sin t)) = t.
Proof.
  intros [H0 H2].
  assert (Hcos : 0 < cos t) by (apply cos_gt_0; lra).
  assert (Hsin : 0 <= sin t) by (apply sin_ge_0; lra).
  replace (1 - sin t * sin t) with (cos t * cos t)
    by (pose proof (sin2_cos2 t) as H; unfold Rsqr in H; lra).
  rewrite !sqrt_square by lra.
  unfold Js.atan2. destruct (Rlt_dec 0 (cos t)) as [_|Hn]; [|done].
  change (sin t / cos t) with (tan t). apply atan_tan. lra.
Qed.

(** Two points of one longitude, the second to the north by less than
    180 degrees: the distance is the radius times the difference of
    latitude in radians. *)
Lemma hav_same_longitude lat1 lat2 lon :
  hav lat1 lon lat2 lon =
  sin (GeoUtils.toRad (lat2 - lat1) / 2) * sin (GeoUtils.toRad (lat2 - lat1) / 2).
Proof.
  unfold hav. replace (GeoUtils.toRad (lon - lon) / 2) with 0
    by (unfold GeoUtils.toRad; lra).
  rewrite sin_0. ring.
Qed.

Lemma distance_same_longitude lat1 lat2 lon :
  0 <= lat2 - lat1 < 180 ->
  GeoUtils.calculateDistance lat1 lon lat2 lon = 3959 * GeoUtils.toRad (lat2 - lat1) /\
  Functions.calculateDistance lat1 lon lat2 lon = 3963 * GeoUtils.toRad (lat2 - lat1).
Proof.
  intros Hd.
  assert (Ht : 0 <= GeoUtils.toRad (lat2 - lat1) / 2 < PI / 2).
  { unfold GeoUtils.toRad. pose proof PI_RGT_0. split; nra. }
  rewrite client_distance_hav, server_distance_hav, hav_same_longitude.
  rewrite atan2_sqrt_sin by done. split; lra.
Qed.

(** C3, at the failing input: for the points 40 N 75 W and 41 N 75 W
    the dispatcher's distance is 3963 times the angle between them and
    the feed's distance 3959 times that angle, and the two differ. *)
Theorem dispatch_and_feed_distances_disagree :
  Functions.calculateDistance 40 (-75) 41 (-75) = 3963 * (PI / 180) /\
  GeoUtils.calculateDistance 40 (-75) 41 (-75) = 3959 * (PI / 180) /\
  Functions.calculateDistance 40 (-75) 41 (-75) <>
  GeoUtils.calculateDistance 40 (-75) 41 (-75).
Proof.
  destruct (distance_same_longitude 40 41 (-75)) as [Hc Hs]; [lra|].
  rewrite Hc, Hs. unfold GeoUtils.toRad. pose proof PI_RGT_0.
  repeat split; lra.
Qed.

(** ** The dispatcher *)

Section Dispatcher.

Import Functions.

Variable toLocaleDateString : string -> string.
Variable messaging : Message.t -> Js.Completion unit.

Lemma forOf_ref_delete (docs : list (string * string * TokenData.t)) (w : World) :
  forOf docs (fun doc => ref_delete doc.1) w =
  (Js.Fulfilled tt,
   mkWorld (foldl (fun m doc => delete doc.1 m) (tokens w) docs)
           (sendCalls w) (console w)).
Proof.
  revert w. induction docs as [|doc docs IH]; intros w.
  - destruct w; reflexivity.
  - cbn [forOf]. unfold mbind, Async_bind, ref_delete at 1.
    rewrite IH. reflexivity.
Qed.

Lemma lookup_foldl_delete (docs : list (string * string * TokenData.t))
    (m : gmap (string * string) TokenData.t) (k : string * string) :
  foldl (fun m doc => delete doc.1 m) m docs !! k =
  if decide (k ∈ docs.*1) then None else m !! k.
Proof.
  revert m. induction docs as [|doc docs IH]; intros m; cbn [foldl fmap list_fmap].
  - rewrite decide_False; [done | apply not_elem_of_nil].
  - rewrite IH. destruct (decide (k = doc.1)) as [->|Hne].
    + rewrite lookup_delete_eq.
      rewrite (decide_True (P := doc.1 ∈ doc.1 :: docs.*1))
        by (apply elem_of_cons; by left).
      by destruct (decide _).
    + rewrite lookup_delete_ne by done.
      destruct (decide (k ∈ docs.*1)) as [Hin|Hnin].
      * rewrite decide_True; [done | apply elem_of_cons; by right].
      * rewrite decide_False; [done |].
        intros [?|?]%elem_of_cons; done.
Qed.

(** Deleting the documents a [where] query returned leaves exactly
    the documents the query did not match. *)
Lemma delete_matching (P : string * string * TokenData.t -> Prop)
    `{!forall doc, Decision (P doc)} (m : gmap (string * string) TokenData.t) :
  foldl (fun m doc => delete doc.1 m) m (map_to_list (filter P m)) =
  filter (fun doc => ~ P doc) m.
Proof.
  apply map_eq; intros k. rewrite lookup_foldl_delete.
  destruct (decide (k ∈ (map_to_list (filter P m)).*1)) as [Hin|Hnin].
  - symmetry. apply map_lookup_filter_None. right. intros x Hx HnP.
    apply list_elem_of_fmap in Hin as [[k' y] [-> Hy]].
    apply elem_of_map_to_list, map_lookup_filter_Some in Hy as [Hy HP].
    cbn in *. congruence.
  - destruct (m !! k) as [x|] eqn:Hk.
    + symmetry. apply map_lookup_filter_Some. split; [done|]. intros HP.
      apply Hnin, list_elem_of_fmap. exists (k, x). split; [done|].
      apply elem_of_map_to_list, map_lookup_filter_Some. done.
    + symmetry. apply map_lookup_filter_None. left. done.
Qed.

Lemma sendNotificationToUser_spec token saleEvent w :
  sendNotificationToUser toLocaleDateString messaging token saleEvent w =
  (Js.Fulfilled tt, after_send toLocaleDateString messaging token saleEvent w).
Proof.
  unfold sendNotificationToUser, after_send, tryCatch, messaging_send.
  unfold mbind, Async_bind.
  destruct (messaging _) as [[]|error]; [reflexivity|].
  unfold consoleError at 1. unfold endpoint_invalid.
  destruct (decide (error_code error = _)) as [Heq|Hne]; [|reflexivity].
  unfold collectionGroup_tokens_where_token_get.
  rewrite forOf_ref_delete. cbn [tokens sendCalls console].
  rewrite (delete_matching (fun doc => TokenData.token doc.2 = token)).
  reflexivity.
Qed.

Lemma sendCalls_after_send token saleEvent w :
  sendCalls (after_send toLocaleDateString messaging token saleEvent w) =
  sendCalls w ++ [message_for toLocaleDateString token saleEvent].
Proof. unfold after_send. by destruct (messaging _). Qed.

(** The callback, for a listing that has a location. *)
Lemma notifyIfNearby_located saleEvent p doc w :
  SaleEvent.location saleEvent = Some p ->
  notifyIfNearby toLocaleDateString messaging saleEvent doc w =
  (Js.Fulfilled tt,
   if sends p doc.2
   then after_send toLocaleDateString messaging (TokenData.token doc.2) saleEvent w
   else w).
Proof.
  intros Hp. unfold notifyIfNearby, sends, passes_guard. rewrite Hp.
  destruct (TokenData.location doc.2) as [loc|]; [|reflexivity].
  destruct (TokenData.searchRadius doc.2) as [radius|]; [|reflexivity].
  cbn [Js.truthy_object Js.truthy negb orb andb].
  destruct (Js.truthy_number radius); [|reflexivity].
  cbn [negb orb andb property]. unfold mbind, Async_bind, mret, Async_ret.
  destruct (le_number _ _); [|reflexivity].
  apply sendNotificationToUser_spec.
Qed.

(** The callback, for a listing without a location. *)
Lemma notifyIfNearby_unlocated saleEvent doc w :
  SaleEvent.location saleEvent = None ->
  notifyIfNearby toLocaleDateString messaging saleEvent doc w =
  (if passes_guard doc.2 then Js.Rejected missing_location else Js.Fulfilled tt, w).
Proof.
  intros Hp. unfold notifyIfNearby, passes_guard. rewrite Hp.
  destruct (TokenData.location doc.2) as [loc|]; [|reflexivity].
  destruct (TokenData.searchRadius doc.2) as [radius|]; [|reflexivity].
  cbn [Js.truthy_object Js.truthy negb orb andb].
  destruct (Js.truthy_number radius); reflexivity.
Qed.

Lemma fanout_located saleEvent p docs w :
  SaleEvent.location saleEvent = Some p ->
  promiseAll (map (notifyIfNearby toLocaleDateString messaging saleEvent) docs) w =
  (Js.Fulfilled tt, after_fanout toLocaleDateString messaging p saleEvent docs w).
Proof.
  intros Hp. revert w. induction docs as [|doc docs IH]; intros w; [reflexivity|].
  cbn [map promiseAll]. rewrite (notifyIfNearby_located _ p) by done.
  rewrite IH. reflexivity.
Qed.

Lemma fanout_unlocated saleEvent docs w :
  SaleEvent.location saleEvent = None ->
  promiseAll (map (notifyIfNearby toLocaleDateString messaging saleEvent) docs) w =
  (if existsb (fun doc => passes_guard doc.2) docs
   then Js.Rejected missing_location else Js.Fulfilled tt, w).
Proof.
  intros Hp. revert w. induction docs as [|doc docs IH]; intros w; [reflexivity|].
  cbn [map promiseAll existsb]. rewrite notifyIfNearby_unlocated by done.
  rewrite IH. destruct (passes_guard doc.2); reflexivity.
Qed.

Lemma sendCalls_after_fanout p saleEvent docs w :
  sendCalls (after_fanout toLocaleDateString messaging p saleEvent docs w) =
  sendCalls w ++
  map (fun doc => message_for toLocaleDateString (TokenData.token doc.2) saleEvent)
      (filter (fun doc => sends p doc.2) docs).
Proof.
  revert w. induction docs as [|doc docs IH]; intros w.
  - cbn. by rewrite app_nil_r.
  - unfold after_fanout in *. cbn [foldl]. rewrite IH, filter_cons.
    destruct (sends p doc.2).
    + rewrite decide_True by done.
      rewrite sendCalls_after_send. cbn [map]. by rewrite <- app_assoc.
    + rewrite decide_False by (intros []). done.
Qed.

Lemma tokens_after_send token saleEvent w :
  tokens (after_send toLocaleDateString messaging token saleEvent w) =
  if answers_invalid (messaging (message_for toLocaleDateString token saleEvent))
  then filter (fun doc => TokenData.token doc.2 <> token) (tokens w)
  else tokens w.
Proof.
  unfold after_send, answers_invalid.
  destruct (messaging _) as [[]|error]; [done|]. cbn [tokens].
  unfold bool_decide. by destruct (decide_rel _ _ _).
Qed.

Lemma pruned_cons p saleEvent doc docs :
  pruned toLocaleDateString messaging p saleEvent (doc :: docs) =
  (if sends p doc.2 &&
      answers_invalid
        (messaging (message_for toLocaleDateString (TokenData.token doc.2) saleEvent))
   then [TokenData.token doc.2] else [])
  ++ pruned toLocaleDateString messaging p saleEvent docs.
Proof. unfold pruned. cbn [omap list_omap]. by destruct (_ && _). Qed.

(** After the fan-out the store holds the registrations whose token no
    delivery found invalid. *)
Lemma tokens_after_fanout p saleEvent docs w :
  tokens (after_fanout toLocaleDateString messaging p saleEvent docs w) =
  filter (fun doc =>
            TokenData.token doc.2 ∉
            pruned toLocaleDateString messaging p saleEvent docs)
         (tokens w).
Proof.
  revert w. induction docs as [|doc docs IH]; intros w.
  - cbn. symmetry. apply map_filter_id. intros ref registration _. apply not_elem_of_nil.
  - unfold after_fanout in *. cbn [foldl]. rewrite IH, pruned_cons.
    destruct (sends p doc.2); cbn [andb]; [|done].
    rewrite tokens_after_send.
    destruct (answers_invalid _); [|done].
    rewrite map_filter_filter. apply map_filter_ext.
    intros ref registration _. cbn [snd app]. rewrite not_elem_of_cons. tauto.
Qed.

End Dispatcher.

Lemma filter_ext_in {A} (P Q : A -> Prop) `{!forall x, Decision (P x)}
    `{!forall x, Decision (Q x)} (l : list A) :
  (forall x, x ∈ l -> P x <-> Q x) -> filter P l = filter Q l.
Proof.
  induction l as [|x l IH]; intros Hext; [reflexivity|].
  rewrite !filter_cons.
  rewrite IH by (intros y Hy; apply Hext, elem_of_cons; by right).
  destruct (decide (P x)) as [HP|HP], (decide (Q x)) as [HQ|HQ];
    try reflexivity; exfalso.
  - apply HQ, Hext; [apply elem_of_cons; by left | done].
  - apply HP, Hext; [apply elem_of_cons; by left | done].
Qed.

Lemma truthy_number_true x : x <> 0 -> Js.truthy_number x = true.
Proof. intros H. unfold Js.truthy_number. by destruct (Req_dec_T x 0). Qed.

Lemma truthy_number_0 : Js.truthy_number 0 = false.
Proof. unfold Js.truthy_number. by destruct (Req_dec_T 0 0). Qed.

(** With a radius that is not zero, the code's two tests say what the
    specification says. *)
Lemma sends_within_radius p registration :
  (forall radius, Functions.TokenData.searchRadius registration = Some radius ->
                  radius <> 0) ->
  sends p registration = within_radius p registration.
Proof.
  intros Hr. unfold sends, within_radius, passes_guard.
  destruct (Functions.TokenData.location registration) as [loc|]; [|reflexivity].
  destruct (Functions.TokenData.searchRadius registration) as [radius|];
    [|reflexivity].
  cbn. rewrite truthy_number_true by (by apply Hr). cbn.
  unfold bool_decide, decide, Rle_decision. by destruct (Rle_dec _ _).
Qed.

(** C1: for a listing that has coordinates, the messages the dispatcher
    hands to the messaging service are, registration by registration,
    those for the registrations that have a location and a radius and
    lie at a distance of at most their radius from the listing (the
    boundary included): each such registration gets one message, which
    carries the registration's own token, the fixed title, the
    listing's title and date, the listing's id and the link to it; a
    registration without location or radius gets none, no other
    message is handed out, and the function returns without error.
    Radii are positive, as the data model has them. *)
Theorem dispatcher_notifies_exactly_within_radius
    (toLocaleDateString : string -> string)
    (messaging : Functions.Message.t -> Js.Completion unit)
    (data : Functions.SaleData.t) (eventId : string) (p : GeoPoint)
    (w : Functions.World) :
  Functions.SaleData.location data = Some p ->
  (forall ref registration radius,
      Functions.tokens w !! ref = Some registration ->
      Functions.TokenData.searchRadius registration = Some radius ->
      0 < radius) ->
  let saleEvent := Functions.SaleEvent.spread eventId data in
  let result := Functions.onNewSaleEvent toLocaleDateString messaging data eventId w in
  let notified :=
    filter (fun doc => within_radius p doc.2) (map_to_list (Functions.tokens w)) in
  let sent := drop (length (Functions.sendCalls w)) (Functions.sendCalls result.2) in
  let id := default eventId (Functions.SaleData.id data) in
  result.1 = Js.Fulfilled tt /\
  Functions.sendCalls result.2 =
    Functions.sendCalls w ++
    map (fun doc =>
           Functions.message_for toLocaleDateString
             (Functions.TokenData.token doc.2) saleEvent)
        (filter (fun doc => within_radius p doc.2)
                (map_to_list (Functions.tokens w))) /\
  map Functions.Message.token sent =
    map (fun doc => Functions.TokenData.token doc.2) notified /\
  sent =
    map (fun doc =>
           Functions.Message.mk
             (Functions.TokenData.token doc.2)
             "New Sale Event Nearby!"
             (Functions.SaleData.title data ++ " starting at " ++
              toLocaleDateString (Functions.SaleData.startDate data))
             id
             "FLUTTER_NOTIFICATION_CLICK"
             ("/event/" ++ id))
        notified.
Proof.
  intros Hp Hpos saleEvent result notified sent id.
  assert (Hsent : Functions.sendCalls result.2 =
                  Functions.sendCalls w ++
                  map (fun doc =>
                         Functions.message_for toLocaleDateString
                           (Functions.TokenData.token doc.2) saleEvent)
                      notified).
  { subst result notified.
    unfold Functions.onNewSaleEvent, Functions.collectionGroup_tokens_get.
    unfold mbind, Functions.Async_bind.
    rewrite (fanout_located _ _ _ p) by done.
    cbn [snd]. rewrite sendCalls_after_fanout.
    f_equal. f_equal. apply filter_ext_in. intros [ref registration] Hin.
    rewrite sends_within_radius; [done|].
    intros radius Hradius. apply elem_of_map_to_list in Hin.
    specialize (Hpos ref registration radius Hin Hradius). cbn in *. lra. }
  split; [|split; [exact Hsent|]].
  - subst result.
    unfold Functions.onNewSaleEvent, Functions.collectionGroup_tokens_get.
    unfold mbind, Functions.Async_bind.
    by rewrite (fanout_located _ _ _ p).
  - subst sent. rewrite Hsent, drop_app_length. split; [|reflexivity].
    rewrite map_map. reflexivity.
Qed.

(** An instance: the store of one registration and a listing created
    at the registration's own location. *)
Lemma dispatcher_notifies_exactly_within_radius_witness :
  let to_date := fun d : string => d in
  let messaging := fun _ : Functions.Message.t => Js.Fulfilled tt in
  let saleEvent := Functions.SaleEvent.spread "event-1" listing_located in
  let result := Functions.onNewSaleEvent to_date messaging listing_located "event-1" world_1 in
  let notified :=
    filter (fun doc => within_radius (mkGeoPoint 40 (-75)) doc.2)
           (map_to_list (Functions.tokens world_1)) in
  let sent := drop (length (Functions.sendCalls world_1)) (Functions.sendCalls result.2) in
  result.1 = Js.Fulfilled tt /\
  Functions.sendCalls result.2 =
    Functions.sendCalls world_1 ++
    map (fun doc =>
           Functions.message_for to_date (Functions.TokenData.token doc.2) saleEvent)
        (filter (fun doc => within_radius (mkGeoPoint 40 (-75)) doc.2)
                (map_to_list (Functions.tokens world_1))) /\
  map Functions.Message.token sent =
    map (fun doc => Functions.TokenData.token doc.2) notified /\
  sent =
    map (fun doc =>
           Functions.Message.mk
             (Functions.TokenData.token doc.2)
             "New Sale Event Nearby!"
             "Yard sale starting at 2025-06-01"
             "event-1"
             "FLUTTER_NOTIFICATION_CLICK"
             "/event/event-1")
        notified.
Proof.
  apply (dispatcher_notifies_exactly_within_radius
           (fun d => d) (fun _ => Js.Fulfilled tt) listing_located "event-1"
           (mkGeoPoint 40 (-75)) world_1).
  - reflexivity.
  - intros ref registration radius Hin Hradius.
    unfold world_1 in Hin. cbn [Functions.tokens] in Hin.
    apply lookup_singleton_Some in Hin as [_ <-].
    cbn in Hradius. injection Hradius as <-. lra.
Defined.

(** The dispatcher on a listing without a location: nothing is sent
    and nothing deleted, and the function is rejected as soon as one
    registration has a location and a radius. *)
Lemma dispatcher_unlocated toLocaleDateString messaging data eventId w :
  Functions.SaleData.location data = None ->
  Functions.onNewSaleEvent toLocaleDateString messaging data eventId w =
  (if existsb (fun doc => passes_guard doc.2) (map_to_list (Functions.tokens w))
   then Js.Rejected missing_location else Js.Fulfilled tt, w).
Proof.
  intros Hp. unfold Functions.onNewSaleEvent, Functions.collectionGroup_tokens_get.
  unfold mbind, Functions.Async_bind.
  by rewrite fanout_unlocated.
Qed.

(** C4, at the failing input: for the listing without a location and
    the store with one registration that has a location and a radius,
    the dispatcher sends nothing and deletes nothing, and it is
    rejected with a TypeError instead of returning successfully. *)
Theorem dispatcher_rejects_listing_without_location
    (toLocaleDateString : string -> string)
    (messaging : Functions.Message.t -> Js.Completion unit) :
  Functions.onNewSaleEvent toLocaleDateString messaging listing_unlocated "event-1" world_1 =
  (Js.Rejected missing_location, world_1).
Proof.
  rewrite dispatcher_unlocated by reflexivity.
  unfold world_1. cbn [Functions.tokens]. rewrite map_to_list_singleton.
  cbn [existsb snd]. unfold passes_guard, registration_1. cbn.
  rewrite truthy_number_true by lra. reflexivity.
Qed.

(** C5: one delivery never lets its failure escape; a failure whose
    code is the endpoint-invalid one leaves in the store exactly the
    registrations that hold another token, whoever owns them; any
    other failure is written to the console and leaves the store as
    it was.  In the fan-out, what the messaging service answers
    changes neither the messages that are handed to it nor the way
    the function settles, and the store is left with exactly the
    registrations whose token no delivery found invalid. *)
Theorem delivery_failure_prunes_or_logs_and_is_isolated
    (toLocaleDateString : string -> string)
    (messaging : Functions.Message.t -> Js.Completion unit) :
  (forall token saleEvent w,
      let message := Functions.message_for toLocaleDateString token saleEvent in
      let result :=
        Functions.sendNotificationToUser toLocaleDateString messaging token saleEvent w in
      result.1 = Js.Fulfilled tt /\
      Functions.sendCalls result.2 = Functions.sendCalls w ++ [message] /\
      match messaging message with
      | Js.Fulfilled _ => Functions.tokens result.2 = Functions.tokens w
      | Js.Rejected error =>
          Functions.console result.2 =
            Functions.console w ++
            [Functions.console_error "Error sending notification:" error] /\
          Functions.tokens result.2 =
            if decide (Functions.error_code error = Some endpoint_invalid)
            then filter (fun doc => Functions.TokenData.token doc.2 <> token)
                        (Functions.tokens w)
            else Functions.tokens w
      end) /\
  (forall (messaging' : Functions.Message.t -> Js.Completion unit) data eventId w,
      let result := Functions.onNewSaleEvent toLocaleDateString messaging data eventId w in
      let result' := Functions.onNewSaleEvent toLocaleDateString messaging' data eventId w in
      result.1 = result'.1 /\
      Functions.sendCalls result.2 = Functions.sendCalls result'.2) /\
  (forall data eventId p w,
      Functions.SaleData.location data = Some p ->
      let result := Functions.onNewSaleEvent toLocaleDateString messaging data eventId w in
      Functions.tokens result.2 =
        filter (fun doc =>
                  Functions.TokenData.token doc.2 ∉
                  pruned toLocaleDateString messaging p
                         (Functions.SaleEvent.spread eventId data)
                         (map_to_list (Functions.tokens w)))
               (Functions.tokens w)).
Proof.
  split; [|split].
  - intros token saleEvent w message result. subst result.
    rewrite sendNotificationToUser_spec. cbn [fst snd].
    split; [reflexivity|]. split; [apply sendCalls_after_send|].
    unfold after_send. fold message. by destruct (messaging message).
  - intros messaging' data eventId w result result'. subst result result'.
    unfold Functions.onNewSaleEvent, Functions.collectionGroup_tokens_get.
    unfold mbind, Functions.Async_bind.
    destruct (Functions.SaleData.location data) as [p|] eqn:Hp.
    + rewrite !(fanout_located _ _ _ p) by done. cbn [fst snd].
      by rewrite !sendCalls_after_fanout.
    + by rewrite !fanout_unlocated.
  - intros data eventId p w Hp result. subst result.
    unfold Functions.onNewSaleEvent, Functions.collectionGroup_tokens_get.
    unfold mbind, Functions.Async_bind.
    rewrite (fanout_located _ _ _ p) by done. cbn [snd].
    apply tokens_after_fanout.
Qed.

(** *** The end-to-end scenario, on a store of one registration *)

Lemma dispatcher_singleton toLocaleDateString messaging data eventId p ref registration :
  Functions.SaleData.location data = Some p ->
  Functions.sendCalls
    (Functions.onNewSaleEvent toLocaleDateString messaging data eventId
       (Functions.mkWorld {[ ref := registration ]} [] [])).2 =
  if sends p registration
  then [Functions.message_for toLocaleDateString
          (Functions.TokenData.token registration)
          (Functions.SaleEvent.spread eventId data)]
  else [].
Proof.
  intros Hp. unfold Functions.onNewSaleEvent, Functions.collectionGroup_tokens_get.
  unfold mbind, Functions.Async_bind.
  rewrite (fanout_located _ _ _ p) by done. cbn [snd Functions.tokens].
  rewrite sendCalls_after_fanout, map_to_list_singleton. cbn [Functions.sendCalls app].
  rewrite filter_cons, filter_nil. cbn [snd].
  by destruct (sends p registration).
Qed.

(** The code's tests for a registration at 40 N 75 W with radius
    [radius] and a listing [x] degrees to the north. *)
Lemma sends_north x radius :
  0 <= x < 180 -> radius <> 0 ->
  sends (mkGeoPoint (40 + x) (-75))
        (Functions.TokenData.mk "token-1" (Some (mkGeoPoint 40 (-75))) (Some radius)) =
  bool_decide (3963 * (x * PI / 180) <= radius).
Proof.
  intros Hx Hr. unfold sends, passes_guard. cbn.
  rewrite truthy_number_true by done. cbn.
  destruct (distance_same_longitude 40 (40 + x) (-75)) as [_ Hs]; [lra|].
  rewrite Hs. unfold GeoUtils.toRad. replace (40 + x - 40) with x by lra.
  unfold bool_decide, decide, Rle_decision. by destruct (Rle_dec _ _).
Qed.

(** A listing about two miles from a registration of radius 10 is
    notified, one about twelve miles away is not, and one at exactly
    the radius is. *)
Example dispatcher_near_far_boundary :
  sends (mkGeoPoint (40 + 0.03) (-75)) registration_1 = true /\
  sends (mkGeoPoint (40 + 0.18) (-75)) registration_1 = false /\
  sends (mkGeoPoint (40 + 1) (-75))
        (Functions.TokenData.mk "token-1" (Some (mkGeoPoint 40 (-75)))
                                (Some (3963 * (PI / 180)))) = true.
Proof.
  pose proof PI_4 as Hpi4. pose proof PI2_3_2 as Hpi3.
  unfold registration_1. rewrite !sends_north by lra.
  split; [|split].
  - apply bool_decide_eq_true_2. lra.
  - apply bool_decide_eq_false_2. lra.
  - apply bool_decide_eq_true_2. lra.
Qed.

(** ** Sorting by a numeric key *)

Section SortByKey.

Context {A : Type} (key : A -> R).

Lemma insert_Permutation x xs :
  Js.insert (fun a b => key a - key b) x xs ≡ₚ x :: xs.
Proof.
  induction xs as [|y ys IH]; cbn; [done|].
  destruct (Rle_dec _ _); [done|].
  rewrite IH. apply Permutation_swap.
Qed.

Lemma sort_Permutation xs : Js.sort (fun a b => key a - key b) xs ≡ₚ xs.
Proof.
  induction xs as [|x xs IH]; cbn; [done|].
  unfold Js.sort in IH. by rewrite insert_Permutation, IH.
Qed.

Lemma insert_StronglySorted x xs :
  StronglySorted (fun a b => key a <= key b) xs ->
  StronglySorted (fun a b => key a <= key b)
                 (Js.insert (fun a b => key a - key b) x xs).
Proof.
  induction xs as [|y ys IH]; intros Hs; cbn.
  - repeat constructor.
  - apply StronglySorted_inv in Hs as [Hys Hy].
    destruct (Rle_dec _ _) as [Hle|Hgt].
    + constructor; [by constructor|].
      constructor; [lra|].
      eapply Forall_impl; [exact Hy|]. cbn beta. intros z Hz. lra.
    + constructor; [by apply IH|].
      rewrite insert_Permutation. constructor; [lra | done].
Qed.

Lemma sort_StronglySorted xs :
  StronglySorted (fun a b => key a <= key b) (Js.sort (fun a b => key a - key b) xs).
Proof.
  induction xs as [|x xs IH]; cbn; [constructor|].
  by apply insert_StronglySorted.
Qed.

(** The sort is stable: elements of one key keep their order. *)
Lemma insert_stable d x xs :
  filter (fun a => key a = d) (Js.insert (fun a b => key a - key b) x xs) =
  filter (fun a => key a = d) (x :: xs).
Proof.
  induction xs as [|y ys IH]; cbn [Js.insert]; [done|].
  destruct (Rle_dec _ _) as [Hle|Hgt]; [done|].
  rewrite (filter_cons _ y), IH, !filter_cons.
  destruct (decide (key y = d)) as [Hy|Hy], (decide (key x = d)) as [Hx|Hx];
    try done.
  exfalso. lra.
Qed.

Lemma sort_stable d xs :
  filter (fun a => key a = d) (Js.sort (fun a b => key a - key b) xs) =
  filter (fun a => key a = d) xs.
Proof.
  induction xs as [|x xs IH]; cbn; [done|].
  unfold Js.sort in IH. by rewrite insert_stable, !filter_cons, IH.
Qed.

End SortByKey.

(** ** The bounds estimator and the location tracker *)

(** C8: the tracker's update replaces the stored coordinates by the new
    position, as a new object, exactly when there were none or the new
    position is more than 0.1 mile from the stored one; otherwise the
    stored object itself is kept. *)
Theorem tracker_propagates_only_significant_moves
    (position : GeoPoint) (t : Home.Tracker) :
  let t' := Home.onSuccess position t in
  let significant :=
    Home.coordinates t = None \/
    exists prev, Home.coordinates t = Some prev /\ 0.1 < feed_distance prev position in
  (Home.identity t' <> Home.identity t <-> significant) /\
  (significant -> Home.coordinates t' = Some position) /\
  (~ significant ->
   Home.coordinates t' = Home.coordinates t /\ Home.identity t' = Home.identity t).
Proof.
  destruct position as [lat lon], t as [[prev|] n l e];
    unfold Home.onSuccess, Home.onSuccess_updater, feed_distance; cbn.
  - destruct (Rlt_dec _ _) as [Hfar|Hnear]; cbn.
    + split; [split; [intros _; right; eauto | lia]|]. split; [done|].
      intros Hn. exfalso. apply Hn. right. eauto.
    + assert (Hns : ~ (Some prev = None \/
                       exists prev0, Some prev = Some prev0 /\
                         0.1 < GeoUtils.calculateDistance
                                 (latitude prev0) (longitude prev0) lat lon)).
      { intros [?|[prev0 [[= <-] Hd]]]; done. }
      split; [split; [done | intros Hs; by destruct Hns]|].
      split; [intros Hs; by destruct Hns | done].
  - split; [split; [by left | lia]|]. split; [done|].
    intros Hn. exfalso. apply Hn. by left.
Qed.

(** For a center strictly between the poles and a positive radius the
    viewport is a square of degrees around the center, of half side
    the latitude offset or the floor. *)
Lemma calculateMapBounds_square (center : GeoPoint) (radius : R) :
  -90 < latitude center < 90 ->
  0 < radius ->
  let half := Rmax 0.001 (radius / 69.172) in
  Home.calculateMapBounds center radius =
    Home.L.mkBounds (latitude center - half, longitude center - half)
                    (latitude center + half, longitude center + half) /\
  0 < half /\
  half <= Rmax 0.001 (radius / (69.172 * cos (latitude center * (PI / 180)))).
Proof.
  intros Hlat Hr half.
  assert (Hcos : 0 < cos (latitude center * (PI / 180))).
  { pose proof PI_RGT_0. apply cos_gt_0; nra. }
  assert (Hcos1 : cos (latitude center * (PI / 180)) <= 1) by apply COS_bound.
  assert (Hle : radius / 69.172 <= radius / (69.172 * cos (latitude center * (PI / 180)))).
  { unfold Rdiv. apply Rmult_le_compat_l; [lra|].
    apply Rinv_le_contravar; nra. }
  assert (Hhalf : 0 < half) by (unfold half; pose proof (Rmax_l 0.001 (radius / 69.172)); lra).
  split; [|split; [done|]].
  - unfold Home.calculateMapBounds, Home.L.latLngBounds, Js.max, Js.min. cbn [fst snd].
    rewrite (Rmin_left (radius / 69.172)) by done. fold half.
    rewrite !Rmin_left, !Rmax_right by lra. reflexivity.
  - unfold half. apply Rle_max_compat_l. done.
Qed.

(** C7, as amended: for a center strictly between the poles and a
    positive radius, the viewport is centred on the center and extends
    by one and the same number of degrees, the radius divided by
    69.172 or 0.001 if that is more, to the north, south, east and
    west; this is more than zero, and to the east and west it is at
    most the extent corrected by the cosine of the latitude. *)
Theorem map_bounds_extend_by_latitude_offset (center : GeoPoint) (radius : R) :
  -90 < latitude center < 90 ->
  0 < radius ->
  let half := Rmax 0.001 (radius / 69.172) in
  Home.calculateMapBounds center radius =
    Home.L.mkBounds (latitude center - half, longitude center - half)
                    (latitude center + half, longitude center + half) /\
  0 < half /\
  half <= Rmax 0.001 (radius / (69.172 * cos (latitude center * (PI / 180)))).
Proof. apply calculateMapBounds_square. Qed.

(** An instance: a center at 60 N and a radius of 69.172 miles. *)
Lemma map_bounds_extend_by_latitude_offset_witness :
  let half := Rmax 0.001 (69.172 / 69.172) in
  Home.calculateMapBounds (mkGeoPoint 60 0) 69.172 =
    Home.L.mkBounds (60 - half, 0 - half) (60 + half, 0 + half) /\
  0 < half /\
  half <= Rmax 0.001 (69.172 / (69.172 * cos (60 * (PI / 180)))).
Proof.
  apply (map_bounds_extend_by_latitude_offset (mkGeoPoint 60 0) 69.172).
  - cbn. lra.
  - lra.
Defined.

(** C7, the counterexample: at 60 N, for a radius of 69.172 miles, the
    circle spans one degree of latitude and two of longitude, and the
    viewport extends by one degree to the east and west. *)
Lemma map_bounds_do_not_inscribe_circle :
  ~ inscribes_circle (mkGeoPoint 60 0) 69.172
      (Home.calculateMapBounds (mkGeoPoint 60 0) 69.172).
Proof.
  destruct (calculateMapBounds_square (mkGeoPoint 60 0) 69.172) as (Hb & _);
    [cbn; lra | lra |].
  rewrite Hb. cbn [latitude longitude]. unfold inscribes_circle.
  cbn [latitude longitude Home.L.southWest Home.L.northEast].
  replace (60 * (PI / 180)) with (PI / 3) by lra. rewrite cos_PI3.
  replace (69.172 / 69.172) with 1 by lra.
  replace (69.172 / (69.172 * (1 / 2))) with 2 by lra.
  rewrite !Rmax_right by lra.
  intros [Hsw _]. injection Hsw as Hsw. lra.
Qed.

(** ** The live feed *)

Section Feed.

Import Home.

Variables (coordinates : GeoPoint) (radius : R).

Lemma alter_app_nil {A} (u : nat) (l : list (list A)) :
  alter (fun xs => xs ++ []) u l = l.
Proof.
  apply list_alter_id. intros xs. apply app_nil_r.
Qed.

(** What the callback does to the arrays and to the suspended
    callbacks, listing by listing. *)
Lemma forEach_callback_spec (u : nat) (st : State) (sale : Sale.t) :
  let st' := forEach_callback coordinates radius u st sale in
  arrays st' =
    alter (fun xs => xs ++ option_list (pushed_now coordinates radius sale)) u (arrays st) /\
  suspended st' =
    suspended st ++ option_list (left_suspended coordinates radius u sale) /\
  sales st' = sales st.
Proof.
  unfold forEach_callback, pushed_now, left_suspended, retained_location, feed_distance.
  destruct (Sale.location sale) as [p|]; cbn;
    [|by rewrite alter_app_nil, app_nil_r].
  destruct (Js.truthy_number (latitude p)); cbn;
    [|by rewrite alter_app_nil, app_nil_r].
  destruct (Js.truthy_number (longitude p)); cbn;
    [|by rewrite alter_app_nil, app_nil_r].
  unfold bool_decide, decide, Rle_decision.
  destruct (Rle_dec _ _); cbn; [|by rewrite alter_app_nil, app_nil_r].
  destruct (Js.truthy Js.truthy_string (Sale.address sale)); cbn.
  - by rewrite app_nil_r.
  - by rewrite alter_app_nil.
Qed.

Lemma forEach_spec (u : nat) (snapshot : list Sale.t) (st : State) :
  let st' := foldl (forEach_callback coordinates radius u) st snapshot in
  arrays st' =
    alter (fun xs => xs ++ omap (pushed_now coordinates radius) snapshot) u (arrays st) /\
  suspended st' =
    suspended st ++ omap (left_suspended coordinates radius u) snapshot /\
  sales st' = sales st.
Proof.
  revert st. induction snapshot as [|sale snapshot IH]; intros st; cbn [foldl].
  - cbn. by rewrite alter_app_nil, app_nil_r.
  - destruct (IH (forEach_callback coordinates radius u st sale)) as (Ha & Hs & Hr).
    destruct (forEach_callback_spec u st sale) as (Ha1 & Hs1 & Hr1).
    cbn zeta. rewrite Ha, Hs, Hr, Ha1, Hs1, Hr1.
    split; [|split; [|done]].
    + rewrite list_alter_alter_eq. apply list_alter_ext; [|done].
      intros xs _. cbn [compose omap list_omap]. rewrite <- app_assoc. f_equal.
      by destruct (pushed_now coordinates radius sale).
    + rewrite <- app_assoc. f_equal. cbn [omap list_omap].
      by destruct (left_suspended coordinates radius u sale).
Qed.

Lemma listener_arrays (snapshot : list Sale.t) (st : State) :
  arrays (listener coordinates radius snapshot st) =
  arrays st ++ [Js.sort byDistance (omap (pushed_now coordinates radius) snapshot)].
Proof.
  unfold listener, sort. cbn [arrays].
  match goal with |- context [foldl ?f ?s snapshot] =>
    destruct (forEach_spec (length (arrays st)) snapshot s) as (Ha & _) end.
  cbn zeta in Ha. rewrite Ha. cbn [arrays].
  rewrite list_alter_alter_eq.
  replace (length (arrays st)) with (length (arrays st) + 0)%nat at 1 by lia.
  by rewrite alter_app_r.
Qed.

Lemma listener_sales (snapshot : list Sale.t) (st : State) :
  sales (listener coordinates radius snapshot st) = length (arrays st).
Proof. reflexivity. Qed.

Lemma listener_suspended (snapshot : list Sale.t) (st : State) :
  suspended (listener coordinates radius snapshot st) =
  suspended st ++
  omap (left_suspended coordinates radius (length (arrays st))) snapshot.
Proof.
  unfold listener, sort. cbn [suspended].
  match goal with |- context [foldl ?f ?s snapshot] =>
    destruct (forEach_spec (length (arrays st)) snapshot s) as (_ & Hs & _) end.
  cbn zeta in Hs. by rewrite Hs.
Qed.

(** The collection published when the listener returns. *)
Lemma listener_published (snapshot : list Sale.t) (st : State) :
  published (listener coordinates radius snapshot st) =
  Js.sort byDistance (omap (pushed_now coordinates radius) snapshot).
Proof.
  unfold published. rewrite listener_arrays, listener_sales.
  by rewrite list_lookup_middle.
Qed.

Lemma pushed_now_sale sale item :
  pushed_now coordinates radius sale = Some item ->
  Item.sale item = sale /\
  exists p, retained_location coordinates radius sale = Some p.
Proof.
  unfold pushed_now. destruct (retained_location _ _ _) as [p|]; [|done].
  destruct (Js.truthy _ _); [|done]. intros [= <-]. eauto.
Qed.

Lemma left_suspended_sale u sale k :
  left_suspended coordinates radius u sale = Some k ->
  suspended_sale k = sale /\ updatedSales k = u /\
  exists p, retained_location coordinates radius sale = Some p.
Proof.
  unfold left_suspended. destruct (retained_location _ _ _) as [p|]; [|done].
  destruct (Js.truthy _ _); [done|]. intros [= <-]. eauto.
Qed.

Lemma retained_location_zero sale p :
  Sale.location sale = Some p ->
  latitude p = 0 \/ longitude p = 0 ->
  retained_location coordinates radius sale = None.
Proof.
  intros Hp Hz. unfold retained_location. rewrite Hp.
  destruct Hz as [-> | ->]; rewrite truthy_number_0; [done|].
  by rewrite andb_false_r.
Qed.

End Feed.

Section Resume.

Import Home.

Variable getAddressFromCoordinates : R -> R -> option string.

(** An element found in an array after some callbacks resumed was
    there before, or is the item of one of them. *)
Lemma resume_elem_of (ks : list Suspended) (st : State) (u : nat)
    (xs : list Item.t) (item : Item.t) :
  arrays (foldl (fun st k => resume getAddressFromCoordinates k st) st ks) !! u
    = Some xs ->
  item ∈ xs ->
  (exists xs0, arrays st !! u = Some xs0 /\ item ∈ xs0) \/
  (exists k, k ∈ ks /\ Item.sale item = suspended_sale k).
Proof.
  revert st xs. induction ks as [|k ks IH]; intros st xs Hxs Hin; cbn [foldl] in Hxs.
  - left. eauto.
  - destruct (IH _ _ Hxs Hin) as [(xs0 & Hxs0 & Hin0)|(k' & Hk' & Hs)].
    + unfold resume, push in Hxs0. cbn [arrays] in Hxs0.
      destruct (decide (u = updatedSales k)) as [->|Hne].
      * rewrite list_lookup_alter_eq in Hxs0.
        apply fmap_Some in Hxs0 as (xs1 & Hxs1 & ->).
        apply elem_of_app in Hin0 as [Hin0|Hin0]; [left; eauto|].
        apply list_elem_of_singleton in Hin0 as ->.
        right. exists k. split; [apply elem_of_cons; by left | done].
      * rewrite list_lookup_alter_ne in Hxs0 by done. left. eauto.
    + right. exists k'. split; [apply elem_of_cons; by right | done].
Qed.

End Resume.

Lemma feed_distance_diag p : feed_distance p p = 0.
Proof.
  unfold feed_distance.
  by rewrite client_distance_hav, hav_refl, Rminus_0_r, sqrt_0, sqrt_1, atan2_0_1, !Rmult_0_r.
Qed.

Lemma retained_location_here address name :
  retained_location here 10 (Home.Sale.mk name (Some here) address) = Some here.
Proof.
  unfold retained_location. cbn [Home.Sale.location here latitude longitude].
  rewrite !truthy_number_true by lra. cbn [andb].
  rewrite bool_decide_eq_true_2; [done|].
  change (mkGeoPoint 40 (-75)) with here. rewrite feed_distance_diag. lra.
Qed.

Lemma sales_resume getAddressFromCoordinates ks st :
  Home.sales (foldl (fun st k => Home.resume getAddressFromCoordinates k st) st ks) =
  Home.sales st.
Proof. revert st. induction ks as [|k ks IH]; intros st; cbn; [done|]. by rewrite IH. Qed.

(** C2, as amended: the collection published when the listener returns
    is in ascending order of the items' [distance], which is the
    distance from the tracked location rounded to one decimal; items
    of one [distance] are in the order of the snapshot; and the
    collection depends on the snapshot, the location and the radius
    alone, so that a repeated run publishes the same. *)
Theorem published_feed_is_stably_sorted_by_rounded_distance
    (coordinates : GeoPoint) (radius : R) (snapshot : list Home.Sale.t)
    (st : Home.State) :
  let items := Home.published (Home.listener coordinates radius snapshot st) in
  StronglySorted (fun a b => Home.Item.distance a <= Home.Item.distance b) items /\
  (forall item, item ∈ items ->
     exists p, Home.Sale.location (Home.Item.sale item) = Some p /\
               Home.Item.sale item ∈ snapshot /\
               Home.Item.distance item =
                 Js.round (feed_distance coordinates p * 10) / 10) /\
  (forall d,
     filter (fun item => Home.Item.distance item = d) items =
     filter (fun item => Home.Item.distance item = d)
            (omap (pushed_now coordinates radius) snapshot)) /\
  (forall st', Home.published (Home.listener coordinates radius snapshot st') = items).
Proof.
  cbn zeta. rewrite listener_published. repeat split.
  - apply (sort_StronglySorted Home.Item.distance).
  - intros item Hin.
    rewrite (sort_Permutation Home.Item.distance) in Hin.
    apply list_elem_of_omap in Hin as (sale & Hsale & Hpushed).
    unfold pushed_now, retained_location in Hpushed.
    destruct (Home.Sale.location sale) as [p|] eqn:Hp; [|done].
    destruct (_ && _); [|done].
    destruct (Js.truthy _ _); [|done].
    injection Hpushed as <-. exists p. by cbn.
  - intros d. apply (sort_stable Home.Item.distance).
  - intros st'. by rewrite listener_published.
Qed.

(** Two listings at the viewer's own location, delivered by the
    snapshot as "b" then "a", are published as "b" then "a". *)
Lemma ties_keep_snapshot_order :
  ~ StronglySorted (by_distance_then_id here)
      (Home.published (Home.listener here 10 [sale_b; sale_a] Home.initial)).
Proof.
  rewrite listener_published. cbn [omap list_omap].
  unfold pushed_now, sale_a, sale_b. rewrite !retained_location_here.
  cbn [Home.Sale.address Js.truthy]. unfold Js.truthy_string.
  rewrite !decide_False by done.
  unfold Js.sort. cbn [foldr Js.insert].
  destruct (Rle_dec _ _) as [_|Hn].
  - intros Hs. apply StronglySorted_inv in Hs as [_ Hb].
    apply Forall_cons in Hb as [[Hlt | [_ Hid]] _].
    + unfold distance_from in Hlt. cbn in Hlt. lra.
    + cbn in Hid. discriminate.
  - exfalso. apply Hn. unfold Home.byDistance, Home.item_for. cbn. lra.
Qed.

Lemma round_small x : 0 <= x < / 2 -> Js.round x = 0.
Proof.
  intros Hx. unfold Js.round.
  rewrite <- (Int_part_spec (x + / 2) 0); [done|]. cbn. lra.
Qed.

Lemma feed_distance_north x :
  0 <= x < 180 ->
  feed_distance here (mkGeoPoint (40 + x) (-75)) = 3959 * (x * PI / 180).
Proof.
  intros Hx. unfold feed_distance, here. cbn [latitude longitude].
  destruct (distance_same_longitude 40 (40 + x) (-75)) as [Hc _]; [lra|].
  rewrite Hc. unfold GeoUtils.toRad. f_equal. f_equal. lra.
Qed.

Lemma retained_location_north x name address :
  0 <= x < 180 ->
  3959 * (x * PI / 180) <= 10 ->
  retained_location here 10
    (Home.Sale.mk name (Some (mkGeoPoint (40 + x) (-75))) address) =
  Some (mkGeoPoint (40 + x) (-75)).
Proof.
  intros Hx Hd. unfold retained_location. cbn [Home.Sale.location latitude longitude].
  rewrite !truthy_number_true by lra. cbn [andb].
  rewrite bool_decide_eq_true_2; [done|]. by rewrite feed_distance_north.
Qed.

(** Two listings less than a twentieth of a mile away, the farther one
    delivered first, are published the farther one first. *)
Lemma rounding_hides_order :
  ~ StronglySorted (by_distance_then_id here)
      (Home.published (Home.listener here 10 [sale_far; sale_near] Home.initial)).
Proof.
  pose proof PI_RGT_0 as Hpi0. pose proof PI_4 as Hpi4.
  rewrite listener_published. cbn [omap list_omap].
  unfold pushed_now, sale_far, sale_near.
  rewrite !retained_location_north by lra.
  cbn [Home.Sale.address Js.truthy]. unfold Js.truthy_string.
  rewrite !decide_False by done.
  rewrite !feed_distance_north by lra.
  unfold Home.item_for. rewrite !round_small by lra.
  unfold Js.sort. cbn [foldr Js.insert].
  destruct (Rle_dec _ _) as [_|Hn].
  - intros Hs. apply StronglySorted_inv in Hs as [_ Hb].
    apply Forall_cons in Hb as [Hab _].
    unfold by_distance_then_id, distance_from in Hab.
    cbn [Home.Item.sale Home.Sale.location] in Hab.
    rewrite !feed_distance_north in Hab by lra.
    destruct Hab as [Hlt | [Heq _]]; lra.
  - exfalso. apply Hn. unfold Home.byDistance. cbn. lra.
Qed.

(** C2, the counterexample: the published collection is not in the
    order by distance from the tracked location and then by id,
    neither for two listings at one place that the snapshot delivers
    as "b" then "a", nor for two listings "a" and "b" of which "a" is
    the farther by less than a twentieth of a mile. *)
Lemma published_feed_not_ordered_by_distance_then_id :
  ~ StronglySorted (by_distance_then_id here)
      (Home.published (Home.listener here 10 [sale_b; sale_a] Home.initial)) /\
  ~ StronglySorted (by_distance_then_id here)
      (Home.published (Home.listener here 10 [sale_far; sale_near] Home.initial)).
Proof. split; [apply ties_keep_snapshot_order | apply rounding_hides_order]. Qed.

(** C6, at the failing input: a listing at the viewer's own location
    that has no stored address has coordinates and lies within the
    radius, yet the collection published when the listener returns
    is empty; its item reaches that same array only when its callback
    resumes, after the publication. *)
Theorem unaddressed_listing_is_missing_from_published_feed
    (getAddressFromCoordinates : R -> R -> option string) :
  let st := Home.listener here 10 [sale_unaddressed] Home.initial in
  has_coordinates_within here 10 sale_unaddressed /\
  Home.published st = [] /\
  Home.published (Home.resumeAll getAddressFromCoordinates (Home.suspended st) st) =
    [Home.item_for sale_unaddressed (feed_distance here here)
                   (getAddressFromCoordinates 40 (-75))].
Proof.
  cbn zeta. split; [|split].
  - exists here. split; [done|]. rewrite feed_distance_diag. lra.
  - rewrite listener_published. cbn [omap list_omap].
    unfold pushed_now, sale_unaddressed. by rewrite retained_location_here.
  - unfold Home.published, Home.resumeAll. cbn [Home.arrays Home.sales].
    rewrite sales_resume, listener_sales, listener_suspended.
    cbn [omap list_omap Home.suspended Home.initial app].
    unfold left_suspended, pushed_now, sale_unaddressed.
    rewrite retained_location_here.
    cbn [Home.Sale.address Js.truthy option_list app foldl].
    unfold Home.resume, Home.push. cbn [Home.arrays Home.updatedSales].
    rewrite listener_arrays. cbn [omap list_omap].
    unfold pushed_now. rewrite retained_location_here.
    cbn [Home.Sale.address Js.truthy Home.initial Home.arrays length].
    reflexivity.
Qed.

(** C10: a listing whose latitude or longitude is exactly 0 takes the
    missing-coordinates branch of the callback, is in no collection
    the listener publishes, and is not added when the callbacks the
    listener left suspended resume. *)
Theorem zero_coordinate_listing_is_excluded
    (getAddressFromCoordinates : R -> R -> option string)
    (coordinates : GeoPoint) (radius : R) (snapshot : list Home.Sale.t)
    (st : Home.State) (sale : Home.Sale.t) (p : GeoPoint) :
  Home.Sale.location sale = Some p ->
  latitude p = 0 \/ longitude p = 0 ->
  let st' := Home.listener coordinates radius snapshot st in
  let resumed := drop (length (Home.suspended st)) (Home.suspended st') in
  (forall u st0,
      Home.forEach_callback coordinates radius u st0 sale =
      Home.consoleLog ("Sale missing location data:" ++ Home.Sale.id sale) st0) /\
  (forall item, item ∈ Home.published st' -> Home.Item.sale item <> sale) /\
  (forall item,
      item ∈ Home.published (Home.resumeAll getAddressFromCoordinates resumed st') ->
      Home.Item.sale item <> sale).
Proof.
  intros Hp Hz st' resumed.
  assert (Hnone : retained_location coordinates radius sale = None)
    by (by eapply retained_location_zero).
  assert (Hpub : forall item, item ∈ Home.published st' -> Home.Item.sale item <> sale).
  { intros item Hin Heq. subst st'. rewrite listener_published in Hin.
    rewrite (sort_Permutation Home.Item.distance) in Hin.
    apply list_elem_of_omap in Hin as (sale' & _ & Hpushed).
    apply pushed_now_sale in Hpushed as [Hs [q Hq]]. congruence. }
  split; [|split; [exact Hpub|]].
  - intros u st0. unfold Home.forEach_callback. rewrite Hp. cbn [fmap option_fmap option_map Js.truthy].
    destruct Hz as [-> | ->]; rewrite truthy_number_0; [done|].
    by rewrite orb_true_r.
  - intros item Hin Heq. unfold Home.published, Home.resumeAll in Hin.
    cbn [Home.arrays Home.sales] in Hin. rewrite sales_resume in Hin.
    destruct (Home.arrays _ !! _) as [xs|] eqn:Hxs;
      [|by apply elem_of_nil in Hin].
    cbn [default] in Hin.
    destruct (resume_elem_of _ _ _ _ _ _ Hxs Hin) as [(xs0 & Hxs0 & Hin0)|(k & Hk & Hs)].
    + apply (Hpub item); [|done]. unfold Home.published. by rewrite Hxs0.
    + subst resumed st'. rewrite listener_suspended, drop_app_length in Hk.
      apply list_elem_of_omap in Hk as (sale' & _ & Hleft).
      apply left_suspended_sale in Hleft as (Hs' & _ & q & Hq). congruence.
Qed.

(** An instance: a listing on the equator, with a stored address, at
    the viewer's own location. *)
Lemma zero_coordinate_listing_is_excluded_witness :
  let sale := Home.Sale.mk "equator" (Some (mkGeoPoint 0 (-75))) (Some "1 Main St") in
  let st' := Home.listener (mkGeoPoint 0 (-75)) 10 [sale] Home.initial in
  let resumed := drop (length (Home.suspended Home.initial)) (Home.suspended st') in
  (forall u st0,
      Home.forEach_callback (mkGeoPoint 0 (-75)) 10 u st0 sale =
      Home.consoleLog ("Sale missing location data:" ++ Home.Sale.id sale) st0) /\
  (forall item, item ∈ Home.published st' -> Home.Item.sale item <> sale) /\
  (forall item,
      item ∈ Home.published (Home.resumeAll (fun _ _ => None) resumed st') ->
      Home.Item.sale item <> sale).
Proof.
  apply (zero_coordinate_listing_is_excluded
           (fun _ _ => None) (mkGeoPoint 0 (-75)) 10
           [Home.Sale.mk "equator" (Some (mkGeoPoint 0 (-75))) (Some "1 Main St")]
           Home.initial
           (Home.Sale.mk "equator" (Some (mkGeoPoint 0 (-75))) (Some "1 Main St"))
           (mkGeoPoint 0 (-75))).
  - reflexivity.
  - left. reflexivity.
Defined.

(** ** More on the dispatcher *)

Section DispatcherMore.

Import Functions.

Variable toLocaleDateString : string -> string.
Variable messaging : Message.t -> Js.Completion unit.

Lemma pruned_Permutation p saleEvent docs docs' :
  docs ≡ₚ docs' ->
  pruned toLocaleDateString messaging p saleEvent docs ≡ₚ
  pruned toLocaleDateString messaging p saleEvent docs'.
Proof. intros Hp. unfold pruned. by rewrite Hp. Qed.

Lemma pruned_elem_of p saleEvent docs token :
  token ∈ pruned toLocaleDateString messaging p saleEvent docs ->
  exists doc, doc ∈ docs /\ TokenData.token doc.2 = token /\ sends p doc.2 = true.
Proof.
  unfold pruned. intros (doc & Hdoc & Hsome)%list_elem_of_omap. cbn zeta in Hsome.
  destruct (sends p doc.2) eqn:Hs; cbn [andb] in Hsome; [|done].
  destruct (answers_invalid _); [|done].
  injection Hsome as <-. eauto.
Qed.

Lemma existsb_Permutation {A} (f : A -> bool) (l l' : list A) :
  l ≡ₚ l' -> existsb f l = existsb f l'.
Proof.
  induction 1 as [|x l l' _ IH|x y l|l l' l'' _ IH1 _ IH2]; cbn.
  - done.
  - by rewrite IH.
  - by destruct (f x), (f y).
  - by rewrite IH1.
Qed.

(** The fan-out over the same registrations in another order. *)
Lemma fanout_Permutation saleEvent docs docs' w :
  docs ≡ₚ docs' ->
  let result := promiseAll (map (notifyIfNearby toLocaleDateString messaging saleEvent) docs) w in
  let result' := promiseAll (map (notifyIfNearby toLocaleDateString messaging saleEvent) docs') w in
  result.1 = result'.1 /\
  tokens result.2 = tokens result'.2 /\
  sendCalls result.2 ≡ₚ sendCalls result'.2.
Proof.
  intros Hp. cbn zeta.
  destruct (SaleEvent.location saleEvent) as [p|] eqn:Hloc.
  - rewrite !(fanout_located _ _ _ p) by done. cbn [fst snd].
    split; [done|]. split.
    + rewrite !tokens_after_fanout. apply map_filter_ext.
      intros ref registration _. cbn [snd].
      by rewrite (pruned_Permutation p saleEvent docs docs' Hp).
    + rewrite !sendCalls_after_fanout. by rewrite Hp.
  - rewrite !fanout_unlocated by done. cbn [fst snd].
    by rewrite (existsb_Permutation _ docs docs' Hp).
Qed.

End DispatcherMore.

Lemma server_distance_diag lat lon : Functions.calculateDistance lat lon lat lon = 0.
Proof.
  by rewrite server_distance_hav, hav_refl, Rminus_0_r, sqrt_0, sqrt_1, atan2_0_1, !Rmult_0_r.
Qed.

Lemma sends_registration_1 : sends (mkGeoPoint 40 (-75)) registration_1 = true.
Proof.
  unfold sends, passes_guard, registration_1. cbn.
  rewrite truthy_number_true by lra. cbn.
  rewrite server_distance_diag. destruct (Rle_dec 0 10); [done|lra].
Qed.

(** The dispatch of a listing at the location of the one registration
    of the store: one message, for the registration's token. *)
Example dispatcher_messages_the_registered_token :
  Functions.sendCalls
    (Functions.onNewSaleEvent (fun d => d) (fun _ => Js.Fulfilled tt)
       listing_located "event-1" world_1).2 =
  [Functions.Message.mk "token-1" "New Sale Event Nearby!"
     "Yard sale starting at 2025-06-01" "event-1"
     "FLUTTER_NOTIFICATION_CLICK" "/event/event-1"].
Proof.
  unfold world_1.
  rewrite (dispatcher_singleton _ _ _ _ (mkGeoPoint 40 (-75))) by reflexivity.
  rewrite sends_registration_1. reflexivity.
Qed.

(** X1: the order in which the registrations are taken does not
    matter: for two orders of the same registrations the fan-out
    settles alike, leaves the same store, and hands the same messages
    to the messaging service, up to their order. *)
Theorem fanout_is_order_independent
    (toLocaleDateString : string -> string)
    (messaging : Functions.Message.t -> Js.Completion unit)
    (saleEvent : Functions.SaleEvent.t)
    (docs docs' : list (string * string * Functions.TokenData.t))
    (w : Functions.World) :
  docs ≡ₚ docs' ->
  let result :=
    Functions.promiseAll
      (map (Functions.notifyIfNearby toLocaleDateString messaging saleEvent) docs) w in
  let result' :=
    Functions.promiseAll
      (map (Functions.notifyIfNearby toLocaleDateString messaging saleEvent) docs') w in
  result.1 = result'.1 /\
  Functions.tokens result.2 = Functions.tokens result'.2 /\
  Functions.sendCalls result.2 ≡ₚ Functions.sendCalls result'.2.
Proof. apply fanout_Permutation. Qed.

(** An instance: two registrations, taken in the two orders. *)
Lemma fanout_is_order_independent_witness :
  let saleEvent := Functions.SaleEvent.spread "event-1" listing_located in
  let doc1 := ("user-1", "token-1", registration_1) in
  let doc2 := ("user-2", "token-2", registration_2) in
  let result :=
    Functions.promiseAll
      (map (Functions.notifyIfNearby (fun d => d) every_endpoint_invalid saleEvent)
           [doc1; doc2]) world_1 in
  let result' :=
    Functions.promiseAll
      (map (Functions.notifyIfNearby (fun d => d) every_endpoint_invalid saleEvent)
           [doc2; doc1]) world_1 in
  result.1 = result'.1 /\
  Functions.tokens result.2 = Functions.tokens result'.2 /\
  Functions.sendCalls result.2 ≡ₚ Functions.sendCalls result'.2.
Proof.
  apply (fanout_is_order_independent
           (fun d => d) every_endpoint_invalid
           (Functions.SaleEvent.spread "event-1" listing_located)
           [("user-1", "token-1", registration_1); ("user-2", "token-2", registration_2)]
           [("user-2", "token-2", registration_2); ("user-1", "token-1", registration_1)]
           world_1).
  apply Permutation_swap.
Defined.

(** X2: when a delivery of a dispatch is answered with the
    endpoint-invalid failure, no registration of the store holds that
    token afterwards, and no later dispatch, for whatever listing and
    whatever the messaging service answers then, hands out a message
    for it. *)
Theorem pruned_token_gets_no_later_message
    (toLocaleDateString : string -> string)
    (messaging : Functions.Message.t -> Js.Completion unit)
    (data : Functions.SaleData.t) (eventId : string) (p : GeoPoint)
    (w : Functions.World) (token : string) :
  Functions.SaleData.location data = Some p ->
  token ∈ pruned toLocaleDateString messaging p
            (Functions.SaleEvent.spread eventId data)
            (map_to_list (Functions.tokens w)) ->
  let w1 := (Functions.onNewSaleEvent toLocaleDateString messaging data eventId w).2 in
  (forall ref registration,
      Functions.tokens w1 !! ref = Some registration ->
      Functions.TokenData.token registration <> token) /\
  (forall toLocaleDateString' messaging' data' eventId',
      let w2 :=
        (Functions.onNewSaleEvent toLocaleDateString' messaging' data' eventId' w1).2 in
      Forall (fun message => Functions.Message.token message <> token)
             (drop (length (Functions.sendCalls w1)) (Functions.sendCalls w2))).
Proof.
  intros Hp Htoken w1.
  assert (Hgone : forall ref registration,
             Functions.tokens w1 !! ref = Some registration ->
             Functions.TokenData.token registration <> token).
  { subst w1. unfold Functions.onNewSaleEvent, Functions.collectionGroup_tokens_get.
    unfold mbind, Functions.Async_bind.
    rewrite (fanout_located _ _ _ p) by done. cbn [snd].
    rewrite tokens_after_fanout. intros ref registration Hin Heq.
    apply map_lookup_filter_Some in Hin as [_ Hnot]. cbn [snd] in Hnot.
    apply Hnot. by rewrite Heq. }
  split; [exact Hgone|].
  intros toLocaleDateString' messaging' data' eventId' w2. subst w2.
  unfold Functions.onNewSaleEvent at 1, Functions.collectionGroup_tokens_get.
  unfold mbind, Functions.Async_bind.
  destruct (Functions.SaleData.location data') as [p'|] eqn:Hp'.
  - rewrite (fanout_located _ _ _ p') by done. cbn [snd].
    rewrite sendCalls_after_fanout, drop_app_length.
    apply Forall_forall. intros message (doc & -> & Hdoc)%list_elem_of_fmap.
    apply list_elem_of_filter in Hdoc as [_ Hdoc]. destruct doc as [ref registration].
    apply elem_of_map_to_list in Hdoc. cbn. by eapply Hgone.
  - rewrite fanout_unlocated by done. cbn [snd].
    by rewrite drop_all.
Qed.

(** An instance: the store of one registration, whose endpoint the
    messaging service finds invalid. *)
Lemma pruned_token_gets_no_later_message_witness :
  let w1 :=
    (Functions.onNewSaleEvent (fun d => d) every_endpoint_invalid
       listing_located "event-1" world_1).2 in
  (forall ref registration,
      Functions.tokens w1 !! ref = Some registration ->
      Functions.TokenData.token registration <> "token-1") /\
  (forall toLocaleDateString' messaging' data' eventId',
      let w2 :=
        (Functions.onNewSaleEvent toLocaleDateString' messaging' data' eventId' w1).2 in
      Forall (fun message => Functions.Message.token message <> "token-1")
             (drop (length (Functions.sendCalls w1)) (Functions.sendCalls w2))).
Proof.
  apply (pruned_token_gets_no_later_message
           (fun d => d) every_endpoint_invalid listing_located "event-1"
           (mkGeoPoint 40 (-75)) world_1 "token-1").
  - reflexivity.
  - unfold world_1. cbn [Functions.tokens]. rewrite map_to_list_singleton.
    unfold pruned. cbn [omap list_omap snd]. rewrite sends_registration_1.
    cbn. apply elem_of_cons. by left.
Defined.

(** X3: a dispatch never adds or changes a registration, and it
    leaves the store as it was when every delivery succeeds; each
    message it hands out is for the token of a registration of the
    store that passes the code's two tests for the listing, and
    carries the listing's id, which is the document's own [id] field
    when it has one and the id of the path otherwise. *)
Theorem dispatch_only_removes_and_only_messages_registered_tokens
    (toLocaleDateString : string -> string)
    (messaging : Functions.Message.t -> Js.Completion unit)
    (data : Functions.SaleData.t) (eventId : string) (w : Functions.World) :
  let w' := (Functions.onNewSaleEvent toLocaleDateString messaging data eventId w).2 in
  Functions.tokens w' ⊆ Functions.tokens w /\
  ((forall message, messaging message = Js.Fulfilled tt) ->
   Functions.tokens w' = Functions.tokens w) /\
  Forall (fun message =>
            Functions.Message.data_eventId message =
              default eventId (Functions.SaleData.id data) /\
            Functions.Message.webpush_fcm_options_link message =
              ("/event/" ++ default eventId (Functions.SaleData.id data))%string /\
            exists ref registration p,
              Functions.tokens w !! ref = Some registration /\
              Functions.SaleData.location data = Some p /\
              sends p registration = true /\
              Functions.Message.token message = Functions.TokenData.token registration)
         (drop (length (Functions.sendCalls w)) (Functions.sendCalls w')).
Proof.
  cbn zeta. unfold Functions.onNewSaleEvent, Functions.collectionGroup_tokens_get.
  unfold mbind, Functions.Async_bind.
  destruct (Functions.SaleData.location data) as [p|] eqn:Hp.
  - rewrite (fanout_located _ _ _ p) by done. cbn [snd].
    rewrite tokens_after_fanout, sendCalls_after_fanout, drop_app_length.
    split; [apply map_filter_subseteq|]. split.
    + intros Hok. apply map_filter_id. intros ref registration _ Hin. cbn [snd] in Hin.
      unfold pruned in Hin. apply list_elem_of_omap in Hin as (doc & _ & Hsome).
      cbn zeta in Hsome. rewrite Hok in Hsome. cbn [answers_invalid] in Hsome.
      by rewrite andb_false_r in Hsome.
    + apply Forall_forall. intros message (doc & -> & Hdoc)%list_elem_of_fmap.
      apply list_elem_of_filter in Hdoc as [Hs Hdoc]. destruct doc as [ref registration].
      apply elem_of_map_to_list in Hdoc. cbn [snd] in *.
      split; [done|]. split; [done|].
      exists ref, registration, p. repeat split; try done.
      by destruct (sends p registration).
  - rewrite fanout_unlocated by done. cbn [snd]. rewrite drop_all.
    split; [done|]. split; [done|]. constructor.
Qed.


(** ** More on the live feed *)

Section FeedMore.

Import Home.

Variable getAddressFromCoordinates : R -> R -> option string.

(** What an array holds after some callbacks resumed: what it held,
    then the items of the callbacks that push to it, in the order in
    which they resumed. *)
Lemma resume_lookup (ks : list Suspended) (st : State) (u : nat) :
  arrays (foldl (fun st k => resume getAddressFromCoordinates k st) st ks) !! u =
  (fun xs => xs ++ map (resumed_item getAddressFromCoordinates)
                       (filter (fun k => updatedSales k = u) ks))
    <$> arrays st !! u.
Proof.
  revert st. induction ks as [|k ks IH]; intros st; cbn [foldl].
  - rewrite filter_nil. cbn [map]. destruct (arrays st !! u); cbn; [|done].
    by rewrite app_nil_r.
  - rewrite IH, filter_cons. unfold resume, push. cbn [arrays].
    destruct (decide (updatedSales k = u)) as [<-|Hne].
    + rewrite list_lookup_alter_eq. destruct (arrays st !! updatedSales k); cbn; [|done].
      by rewrite <- app_assoc.
    + by rewrite list_lookup_alter_ne.
Qed.

Lemma published_resumeAll (ks : list Suspended) (st : State) (xs : list Item.t) :
  arrays st !! sales st = Some xs ->
  published (resumeAll getAddressFromCoordinates ks st) =
  xs ++ map (resumed_item getAddressFromCoordinates)
            (filter (fun k => updatedSales k = sales st) ks).
Proof.
  intros Hxs. unfold published, resumeAll. cbn [arrays sales].
  by rewrite sales_resume, resume_lookup, Hxs.
Qed.

Lemma listener_lookup_sales coordinates radius snapshot st :
  arrays (listener coordinates radius snapshot st)
    !! sales (listener coordinates radius snapshot st) =
  Some (published (listener coordinates radius snapshot st)).
Proof.
  rewrite listener_published, listener_arrays, listener_sales.
  by rewrite list_lookup_middle.
Qed.

Lemma newly_suspended_eq coordinates radius snapshot st :
  newly_suspended coordinates radius snapshot st =
  omap (left_suspended coordinates radius (length (arrays st))) snapshot.
Proof. unfold newly_suspended. by rewrite listener_suspended, drop_app_length. Qed.

Lemma newly_suspended_target coordinates radius snapshot st k :
  k ∈ newly_suspended coordinates radius snapshot st ->
  updatedSales k = length (arrays st).
Proof.
  rewrite newly_suspended_eq. intros (sale & _ & Hk)%list_elem_of_omap.
  by apply left_suspended_sale in Hk as (_ & Hu & _).
Qed.

End FeedMore.

Lemma round_error x : - / 2 < Js.round x - x <= / 2.
Proof.
  unfold Js.round. destruct (base_Int_part (x + / 2)) as [Hle Hgt]. lra.
Qed.

Lemma item_for_distance_error sale d address :
  Rabs (Home.Item.distance (Home.item_for sale d address) - d) <= 0.05.
Proof.
  unfold Home.item_for. cbn [Home.Item.distance].
  pose proof (round_error (d * 10)) as Hr. apply Rabs_le. lra.
Qed.

Lemma retained_location_Some coordinates radius sale p :
  retained_location coordinates radius sale = Some p ->
  Home.Sale.location sale = Some p /\ latitude p <> 0 /\ longitude p <> 0 /\
  feed_distance coordinates p <= radius.
Proof.
  unfold retained_location. destruct (Home.Sale.location sale) as [q|]; [|done].
  unfold Js.truthy_number.
  destruct (Req_dec_T (latitude q) 0); cbn [andb]; [done|].
  destruct (Req_dec_T (longitude q) 0); cbn [andb]; [done|].
  destruct (bool_decide_reflect (feed_distance coordinates q <= radius)); [|done].
  by intros [= <-].
Qed.

Lemma filter_all {A} (P : A -> Prop) `{!forall x, Decision (P x)} (l : list A) :
  (forall x, x ∈ l -> P x) -> filter P l = l.
Proof.
  induction l as [|x l IH]; intros Hall; [done|].
  rewrite filter_cons_True by (apply Hall, elem_of_cons; by left).
  f_equal. apply IH. intros y Hy. apply Hall, elem_of_cons. by right.
Qed.

Lemma filter_none {A} (P : A -> Prop) `{!forall x, Decision (P x)} (l : list A) :
  (forall x, x ∈ l -> ~ P x) -> filter P l = [].
Proof.
  induction l as [|x l IH]; intros Hnone; [done|].
  rewrite filter_cons_False by (apply Hnone, elem_of_cons; by left).
  apply IH. intros y Hy. apply Hnone, elem_of_cons. by right.
Qed.

Lemma pushed_now_Some coordinates radius sale item :
  pushed_now coordinates radius sale = Some item ->
  exists p, retained_location coordinates radius sale = Some p /\
            item = Home.item_for sale (feed_distance coordinates p) (Home.Sale.address sale).
Proof.
  unfold pushed_now. destruct (retained_location _ _ _) as [p|]; [|done].
  destruct (Js.truthy _ _); [|done]. intros [= <-]. eauto.
Qed.

Lemma left_suspended_Some coordinates radius u sale k :
  left_suspended coordinates radius u sale = Some k ->
  exists p, retained_location coordinates radius sale = Some p /\
            k = Home.mkSuspended u sale (feed_distance coordinates p) p.
Proof.
  unfold left_suspended. destruct (retained_location _ _ _) as [p|]; [|done].
  destruct (Js.truthy _ _); [done|]. intros [= <-]. eauto.
Qed.

(** Each retained listing is pushed at once or left suspended, never
    both. *)
Lemma retained_split coordinates radius u snapshot :
  (Home.Item.sale <$> omap (pushed_now coordinates radius) snapshot) ++
  (Home.suspended_sale <$> omap (left_suspended coordinates radius u) snapshot) ≡ₚ
  filter (fun sale => is_Some (retained_location coordinates radius sale)) snapshot.
Proof.
  induction snapshot as [|sale snapshot IH]; [done|].
  cbn [omap list_omap]. rewrite filter_cons.
  unfold pushed_now at 1, left_suspended at 1.
  destruct (retained_location coordinates radius sale) as [p|].
  - rewrite decide_True by eauto.
    destruct (Js.truthy _ _); cbn [fmap list_fmap app Home.Item.sale Home.item_for
                                   Home.suspended_sale].
    + by rewrite IH.
    + rewrite <- Permutation_middle. by rewrite IH.
  - rewrite decide_False by (by intros [? ?]). exact IH.
Qed.

(** What the published collection holds, also after callbacks resumed. *)
Lemma published_items_are_retained
    (getAddressFromCoordinates : R -> R -> option string)
    (coordinates : GeoPoint) (radius : R) (snapshot : list Home.Sale.t)
    (st : Home.State) (ks : list Home.Suspended) :
  ks ⊆ newly_suspended coordinates radius snapshot st ->
  Forall (fun item =>
            exists p,
              Home.Sale.location (Home.Item.sale item) = Some p /\
              Home.Item.sale item ∈ snapshot /\
              latitude p <> 0 /\ longitude p <> 0 /\
              feed_distance coordinates p <= radius /\
              Rabs (Home.Item.distance item - feed_distance coordinates p) <= 0.05)
         (Home.published
            (Home.resumeAll getAddressFromCoordinates ks
               (Home.listener coordinates radius snapshot st))).
Proof.
  intros Hks.
  rewrite (published_resumeAll _ _ _ _ (listener_lookup_sales _ _ _ _)).
  rewrite listener_published. apply Forall_app. split.
  - rewrite (sort_Permutation Home.Item.distance).
    apply Forall_forall. intros item (sale & Hsale & Hitem)%list_elem_of_omap.
    apply pushed_now_Some in Hitem as (p & Hp & ->).
    apply retained_location_Some in Hp as (Hloc & Hlat & Hlon & Hd).
    exists p. repeat split; try done. apply item_for_distance_error.
  - apply Forall_forall. intros item (k & -> & Hk)%list_elem_of_fmap.
    apply list_elem_of_filter in Hk as [_ Hk]. apply Hks in Hk.
    rewrite newly_suspended_eq in Hk.
    apply list_elem_of_omap in Hk as (sale & Hsale & Hk).
    apply left_suspended_Some in Hk as (p & Hp & ->).
    apply retained_location_Some in Hp as (Hloc & Hlat & Hlon & Hd).
    exists p. unfold resumed_item. cbn [Home.suspended_sale Home.suspended_distance].
    repeat split; try done. apply item_for_distance_error.
Qed.



(** X5: once the callbacks a run left suspended have all resumed, in
    any order, the collection the run published holds first what it
    held at publication and then the resumed callbacks' items in the
    order in which they resumed; its listings are then exactly the
    listings of the snapshot with non-zero coordinates within the
    radius, each once for each time the snapshot has it. *)
Theorem feed_is_complete_once_callbacks_resume
    (getAddressFromCoordinates : R -> R -> option string)
    (coordinates : GeoPoint) (radius : R) (snapshot : list Home.Sale.t)
    (st : Home.State) (ks : list Home.Suspended) :
  ks ≡ₚ newly_suspended coordinates radius snapshot st ->
  let st' := Home.listener coordinates radius snapshot st in
  Home.published (Home.resumeAll getAddressFromCoordinates ks st') =
    Home.published st' ++ map (resumed_item getAddressFromCoordinates) ks /\
  Home.Item.sale <$> Home.published (Home.resumeAll getAddressFromCoordinates ks st') ≡ₚ
    filter (fun sale => is_Some (retained_location coordinates radius sale)) snapshot.
Proof.
  intros Hks st'. subst st'.
  assert (Hall : filter (fun k => Home.updatedSales k =
                                  Home.sales (Home.listener coordinates radius snapshot st)) ks
                 = ks).
  { rewrite listener_sales. apply filter_all. intros k Hk.
    eapply newly_suspended_target. by rewrite <- Hks. }
  rewrite (published_resumeAll _ _ _ _ (listener_lookup_sales _ _ _ _)), Hall.
  split; [done|].
  rewrite fmap_app, listener_published, (sort_Permutation Home.Item.distance).
  rewrite <- (retained_split coordinates radius (length (Home.arrays st)) snapshot).
  apply Permutation_app; [done|].
  rewrite Hks, newly_suspended_eq.
  rewrite <- list_fmap_compose. apply Permutation_refl.
Qed.

(** An instance: the listing without a stored address. *)
Lemma feed_is_complete_once_callbacks_resume_witness :
  let ks := newly_suspended here 10 [sale_unaddressed] Home.initial in
  let st' := Home.listener here 10 [sale_unaddressed] Home.initial in
  Home.published (Home.resumeAll (fun _ _ => None) ks st') =
    Home.published st' ++ map (resumed_item (fun _ _ => None)) ks /\
  Home.Item.sale <$> Home.published (Home.resumeAll (fun _ _ => None) ks st') ≡ₚ
    filter (fun sale => is_Some (retained_location here 10 sale)) [sale_unaddressed].
Proof.
  apply (feed_is_complete_once_callbacks_resume
           (fun _ _ => None) here 10 [sale_unaddressed] Home.initial
           (newly_suspended here 10 [sale_unaddressed] Home.initial)).
  apply Permutation_refl.
Defined.

(** X6: a callback that an earlier run of the listener left suspended
    pushes to that run's array: when it resumes after a later run has
    published, the published collection is unchanged. *)
Theorem stale_callbacks_leave_newer_publication_alone
    (getAddressFromCoordinates : R -> R -> option string)
    (coordinates1 coordinates2 : GeoPoint) (radius1 radius2 : R)
    (snapshot1 snapshot2 : list Home.Sale.t) (st : Home.State)
    (ks : list Home.Suspended) :
  ks ⊆ newly_suspended coordinates1 radius1 snapshot1 st ->
  let st1 := Home.listener coordinates1 radius1 snapshot1 st in
  let st2 := Home.listener coordinates2 radius2 snapshot2 st1 in
  Home.published (Home.resumeAll getAddressFromCoordinates ks st2) = Home.published st2.
Proof.
  intros Hks st1 st2. subst st1 st2.
  rewrite (published_resumeAll _ _ _ _ (listener_lookup_sales _ _ _ _)).
  rewrite filter_none; [by rewrite app_nil_r|].
  intros k Hk. apply Hks, newly_suspended_target in Hk.
  rewrite listener_sales, listener_arrays, length_app, Hk. cbn. lia.
Qed.

(** An instance: the listing without a stored address, then an empty
    snapshot. *)
Lemma stale_callbacks_leave_newer_publication_alone_witness :
  let st1 := Home.listener here 10 [sale_unaddressed] Home.initial in
  let st2 := Home.listener here 10 [] st1 in
  Home.published
    (Home.resumeAll (fun _ _ => None)
       (newly_suspended here 10 [sale_unaddressed] Home.initial) st2) =
  Home.published st2.
Proof.
  apply (stale_callbacks_leave_newer_publication_alone
           (fun _ _ => None) here here 10 10 [sale_unaddressed] [] Home.initial
           (newly_suspended here 10 [sale_unaddressed] Home.initial)).
  intros k Hk. exact Hk.
Defined.


(** ** The bounding box *)



(** ** The haversine term, over the real numbers *)

Lemma toRad_half_diff lat1 lat2 :
  GeoUtils.toRad (lat2 - lat1) / 2 = (GeoUtils.toRad lat2 - GeoUtils.toRad lat1) / 2.
Proof. unfold GeoUtils.toRad. lra. Qed.

Lemma cos_toRad_nonneg lat : -90 <= lat <= 90 -> 0 <= cos (GeoUtils.toRad lat).
Proof.
  intros Hlat. pose proof PI_RGT_0. unfold GeoUtils.toRad.
  apply cos_ge_0; nra.
Qed.

(** Over the real numbers, the haversine term of two points of valid
    latitude lies between 0 and 1. *)
Lemma hav_range lat1 lon1 lat2 lon2 :
  -90 <= lat1 <= 90 -> -90 <= lat2 <= 90 ->
  0 <= hav lat1 lon1 lat2 lon2 <= 1.
Proof.
  intros H1 H2. unfold hav. rewrite toRad_half_diff.
  set (p1 := GeoUtils.toRad lat1). set (p2 := GeoUtils.toRad lat2).
  set (s := sin (GeoUtils.toRad (lon2 - lon1) / 2)).
  assert (Hc1 : 0 <= cos p1) by (by apply cos_toRad_nonneg).
  assert (Hc2 : 0 <= cos p2) by (by apply cos_toRad_nonneg).
  assert (Hs : 0 <= s * s <= 1).
  { pose proof (sin2_cos2 (GeoUtils.toRad (lon2 - lon1) / 2)) as Hsc.
    unfold Rsqr in Hsc. fold s in Hsc.
    pose proof (Rle_0_sqr s) as Hs0. unfold Rsqr in Hs0.
    pose proof (Rle_0_sqr (cos (GeoUtils.toRad (lon2 - lon1) / 2))) as Hc0.
    unfold Rsqr in Hc0. lra. }
  set (d := (p2 - p1) / 2). set (x := (p2 + p1) / 2).
  assert (Hp1 : p1 = x - d) by (unfold x, d; lra).
  assert (Hp2 : p2 = x + d) by (unfold x, d; lra).
  assert (Hprod : cos p1 * cos p2 <= cos d * cos d).
  { rewrite Hp1, Hp2, cos_minus, cos_plus.
    pose proof (sin2_cos2 x) as Hx. pose proof (sin2_cos2 d) as Hd.
    unfold Rsqr in Hx, Hd.
    pose proof (Rle_0_sqr (sin x * sin d)) as Ha. unfold Rsqr in Ha.
    pose proof (Rle_0_sqr (sin x * cos d)) as Hb. unfold Rsqr in Hb.
    nra. }
  pose proof (sin2_cos2 d) as Hd. unfold Rsqr in Hd.
  pose proof (Rle_0_sqr (sin d)) as Hsd. unfold Rsqr in Hsd.
  assert (Hcc : 0 <= cos p1 * cos p2) by (by apply Rmult_le_pos).
  split.
  - assert (0 <= cos p1 * cos p2 * s * s) by nra. lra.
  - assert (cos p1 * cos p2 * s * s <= cos p1 * cos p2) by nra. lra.
Qed.

Lemma atan2_first_quadrant y x : 0 <= y -> 0 <= x -> 0 <= Js.atan2 y x <= PI / 2.
Proof.
  intros Hy Hx. pose proof PI_RGT_0 as Hpi. unfold Js.atan2.
  destruct (Rlt_dec 0 x) as [Hpos|_].
  - pose proof (atan_bound (y / x)) as [_ Hub].
    split; [|lra].
    destruct (Req_dec y 0) as [->|Hne].
    + unfold Rdiv. rewrite Rmult_0_l, atan_0. lra.
    + rewrite <- atan_0. apply Rlt_le, atan_increasing.
      apply Rdiv_lt_0_compat; lra.
  - destruct (Rlt_dec x 0); [lra|].
    destruct (Rlt_dec 0 y); [lra|].
    destruct (Rlt_dec y 0); lra.
Qed.

(** ** Zoom, map boundary, markers *)

(** X11: a larger radius never gets a finer zoom level; every level
    lies between 10 and 14, within the limits 10 and 16 of the map;
    and the five radii of the selector get the five levels from 14
    down to 10. *)
Theorem zoom_level_is_antitone_and_within_map_limits :
  (forall radius1 radius2,
      radius1 <= radius2 ->
      (Home.calculateZoomLevel radius2 <= Home.calculateZoomLevel radius1)%Z) /\
  (forall radius, (10 <= Home.calculateZoomLevel radius <= 14)%Z) /\
  map Home.calculateZoomLevel Home.radiusOptions = [14; 13; 12; 11; 10]%Z.
Proof.
  split; [|split].
  - intros radius1 radius2 Hle. unfold Home.calculateZoomLevel.
    repeat destruct (Rle_dec _ _); try lia; lra.
  - intros radius. unfold Home.calculateZoomLevel.
    repeat destruct (Rle_dec _ _); lia.
  - unfold Home.radiusOptions, Home.calculateZoomLevel. cbn [map].
    repeat (destruct (Rle_dec _ _); try lra). reflexivity.
Qed.






(** X13: every listing of the collection that a run of the listener
    published, also after callbacks of the run have resumed, gets a
    marker: the marker of the listing at index [i] stands at the
    listing's coordinates, shows the number [i + 1], which is the
    number of the listing in the list, and scrolls to item [i]. *)
Theorem every_published_listing_gets_its_numbered_marker
    (getAddressFromCoordinates : R -> R -> option string)
    (coordinates : GeoPoint) (radius : R) (snapshot : list Home.Sale.t)
    (st : Home.State) (ks : list Home.Suspended) :
  ks ⊆ newly_suspended coordinates radius snapshot st ->
  let sales :=
    Home.published
      (Home.resumeAll getAddressFromCoordinates ks
         (Home.listener coordinates radius snapshot st)) in
  length (Home.renderMarkers sales) = length sales /\
  forall i sale,
    sales !! i = Some sale ->
    exists p,
      Home.Sale.location (Home.Item.sale sale) = Some p /\
      Home.renderMarkers sales !! i =
        Some (Some (Home.mkMarker
                      ("marker-" ++ Home.Item.id sale ++ "-" ++ pretty i)%string
                      (latitude p, longitude p) (i + 1) i)).
Proof.
  intros Hks sales.
  pose proof (published_items_are_retained
                getAddressFromCoordinates coordinates radius snapshot st ks Hks) as Hall.
  fold sales in Hall. split; [unfold Home.renderMarkers; apply length_imap|].
  intros i sale Hi.
  rewrite Forall_forall in Hall.
  destruct (Hall sale) as (p & Hp & _ & Hlat & Hlon & _);
    [by eapply list_elem_of_lookup_2|].
  exists p. split; [done|].
  unfold Home.renderMarkers. rewrite list_lookup_imap, Hi. cbn [fmap option_fmap option_map].
  rewrite Hp. cbn [fmap option_fmap option_map Js.truthy].
  by rewrite !truthy_number_true.
Qed.

(** An instance: two listings at the viewer's location, none of them
    suspended. *)
Lemma every_published_listing_gets_its_numbered_marker_witness :
  let sales :=
    Home.published
      (Home.resumeAll (fun _ _ => None) []
         (Home.listener here 10 [sale_b; sale_a] Home.initial)) in
  length (Home.renderMarkers sales) = length sales /\
  forall i sale,
    sales !! i = Some sale ->
    exists p,
      Home.Sale.location (Home.Item.sale sale) = Some p /\
      Home.renderMarkers sales !! i =
        Some (Some (Home.mkMarker
                      ("marker-" ++ Home.Item.id sale ++ "-" ++ pretty i)%string
                      (latitude p, longitude p) (i + 1) i)).
Proof.
  apply (every_published_listing_gets_its_numbered_marker
           (fun _ _ => None) here 10 [sale_b; sale_a] Home.initial []).
  intros k Hk. by apply elem_of_nil in Hk.
Defined.

(** ** Regions *)

Lemma regions_states_NoDup : NoDup (concat (snd <$> Home.regions)).
Proof.
  apply (bool_decide_unpack (NoDup (concat (snd <$> Home.regions)))).
  vm_compute. exact I.
Qed.

(** X14: [getRegionFromState] answers a region exactly for the state
    codes the table lists, and the region it answers is the one that
    lists the code; the table lists 51 codes, none of them twice, so
    that the order of its regions does not matter. *)
Theorem region_lookup_is_exact :
  (forall stateCode region,
      Home.getRegionFromState stateCode = Some region <->
      exists states, (region, states) ∈ Home.regions /\ stateCode ∈ states) /\
  NoDup (concat (snd <$> Home.regions)) /\
  length (concat (snd <$> Home.regions)) = 51%nat.
Proof.
  split; [|split; [apply regions_states_NoDup | reflexivity]].
  intros stateCode region. split.
  - unfold Home.getRegionFromState. intros Hfind.
    destruct (find _ Home.regions) as [[region' states]|] eqn:Hf; [|done].
    injection Hfind as ->. apply find_some in Hf as [Hin Hdec].
    exists states. split; [by apply list_elem_of_In|].
    by apply bool_decide_eq_true_1 in Hdec.
  - intros (states & Hin & Hcode). unfold Home.regions in Hin.
    repeat (apply elem_of_cons in Hin as [[= -> ->]|Hin]);
      [| | | | by apply elem_of_nil in Hin];
      repeat (apply elem_of_cons in Hcode as [->|Hcode]);
      solve [reflexivity | by apply elem_of_nil in Hcode].
Qed.

(** ** The retry policy of the location tracker *)

Lemma onError_counts error f :
  Home.retryCount (Home.onError error f) =
    (if calls_for_retry (Failure error) && bool_decide (Home.retryCount f < Home.maxRetries)%nat
     then S (Home.retryCount f) else Home.retryCount f) /\
  Home.getCurrentPosition (Home.onError error f) =
    Home.getCurrentPosition f ++
    (if calls_for_retry (Failure error) && bool_decide (Home.retryCount f < Home.maxRetries)%nat
     then [Home.mkPositionOptions false 10000%Z 60000%Z] else []) /\
  Home.watchPosition (Home.onError error f) = Home.watchPosition f /\
  Home.coordinates (Home.tracker (Home.onError error f)) =
    Home.coordinates (Home.tracker f) /\
  Home.identity (Home.tracker (Home.onError error f)) = Home.identity (Home.tracker f) /\
  (exists detail,
      Home.locationError (Home.tracker (Home.onError error f)) =
      Some ("Failed to get location. " ++ detail)%string) /\
  (calls_for_retry (Failure error) && bool_decide (Home.retryCount f < Home.maxRetries)%nat
     = false ->
   Home.locationLoading (Home.tracker (Home.onError error f)) = false) /\
  (calls_for_retry (Failure error) && bool_decide (Home.retryCount f < Home.maxRetries)%nat
     = true ->
   Home.locationLoading (Home.tracker (Home.onError error f)) =
   Home.locationLoading (Home.tracker f)).
Proof.
  unfold Home.onError, calls_for_retry, Home.retryWithFallback.
  unfold bool_decide.
  destruct (decide_rel eq (Home.code error) Home.PERMISSION_DENIED) as [Hc|Hc];
    [rewrite decide_True by done | rewrite decide_False by done]; cbn [negb andb].
  - cbn. rewrite app_nil_r. repeat split; eauto; done.
  - destruct (decide (Home.code error = Home.POSITION_UNAVAILABLE));
      [|destruct (decide (Home.code error = Home.TIMEOUT))];
      destruct (decide_rel lt (Home.retryCount f) Home.maxRetries) as [Hlt|Hge];
      (rewrite ?decide_True by done; rewrite ?decide_False by done);
      cbn; rewrite ?app_nil_r; repeat split; eauto; done.
Qed.

Lemma fetch_invariant events t :
  let f := foldl deliver (Home.fetchLocation true t) events in
  Home.retryCount f = Nat.min Home.maxRetries (length (filter calls_for_retry events)) /\
  Home.getCurrentPosition f =
    Home.options :: replicate (Home.retryCount f)
                              (Home.mkPositionOptions false 10000%Z 60000%Z) /\
  Home.watchPosition f = [Home.options].
Proof.
  induction events as [|event events IH] using rev_ind; [done|].
  cbn zeta in *. rewrite foldl_snoc, filter_app, length_app.
  destruct IH as (Hcount & Hget & Hwatch).
  set (f := foldl deliver (Home.fetchLocation true t) events) in *.
  destruct event as [position|error]; cbn [deliver].
  - rewrite filter_cons_False, filter_nil by (cbn; tauto). cbn [length].
    rewrite Nat.add_0_r. done.
  - destruct (onError_counts error f) as (Hc & Hg & Hw & _).
    rewrite Hc, Hg, Hw, Hget, Hwatch. rewrite filter_cons, filter_nil.
    unfold Home.maxRetries in *.
    destruct (calls_for_retry (Failure error)); cbn [andb].
    + rewrite decide_True by done. cbn [length].
      destruct (bool_decide_reflect (Home.retryCount f < 2)%nat) as [Hlt|Hge].
      * split; [lia|]. split; [|done].
        change (Home.options :: ?l ++ [?x]) with ((Home.options :: l) ++ [x]).
        cbn [app]. f_equal. by rewrite <- replicate_S_end.
      * rewrite app_nil_r. split; [lia|done].
    + rewrite decide_False by (intros []). cbn [length].
      rewrite app_nil_r, Nat.add_0_r. done.
Qed.

(** X15: however many positions and errors the browser delivers, the
    tracker asks again at most twice: the number of its retries is the
    number of errors other than a denied permission, capped at 2;
    every retry is one more call of [getCurrentPosition], with a
    timeout of 10 seconds; and there is one watch.  Without
    geolocation it asks for nothing, turns loading off and says so. *)
Theorem tracker_retries_at_most_twice (events : list GeolocationEvent)
    (t : Home.Tracker) :
  let f := foldl deliver (Home.fetchLocation true t) events in
  let unsupported := Home.fetchLocation false t in
  Home.retryCount f = Nat.min 2 (length (filter calls_for_retry events)) /\
  Home.getCurrentPosition f =
    Home.options :: replicate (Home.retryCount f)
                              (Home.mkPositionOptions false 10000%Z 60000%Z) /\
  Home.watchPosition f = [Home.options] /\
  Home.getCurrentPosition unsupported = [] /\
  Home.watchPosition unsupported = [] /\
  Home.locationLoading (Home.tracker unsupported) = false /\
  Home.locationError (Home.tracker unsupported) =
    Some "Geolocation is not supported by your browser".
Proof.
  destruct (fetch_invariant events t) as (Hc & Hg & Hw).
  cbn zeta. repeat split; done.
Qed.

(** X16: an error never changes the stored coordinates; after it the
    error message starts with "Failed to get location. ", and loading
    is turned off when the permission was denied or two retries have
    been made already, and left as it was when the error starts a
    retry.  After a position the error is cleared and loading is
    off. *)
Theorem tracker_status_after_each_event (events : list GeolocationEvent)
    (event : GeolocationEvent) (t : Home.Tracker) :
  let before := foldl deliver (Home.fetchLocation true t) events in
  let after := deliver before event in
  match event with
  | Fix position =>
      Home.locationError (Home.tracker after) = None /\
      Home.locationLoading (Home.tracker after) = false
  | Failure error =>
      Home.coordinates (Home.tracker after) = Home.coordinates (Home.tracker before) /\
      Home.identity (Home.tracker after) = Home.identity (Home.tracker before) /\
      (exists detail,
          Home.locationError (Home.tracker after) =
          Some ("Failed to get location. " ++ detail)%string) /\
      Home.locationLoading (Home.tracker after) =
        if calls_for_retry event &&
           bool_decide (length (filter calls_for_retry events) < 2)%nat
        then Home.locationLoading (Home.tracker before)
        else false
  end.
Proof.
  cbn zeta. destruct (fetch_invariant events t) as (Hc & _).
  cbn zeta in Hc. set (before := foldl deliver (Home.fetchLocation true t) events) in *.
  destruct event as [position|error]; cbn [deliver].
  - unfold Home.onSuccess_in, Home.onSuccess. cbn.
    by destruct (Home.onSuccess_updater _ _).
  - destruct (onError_counts error before) as (_ & _ & _ & Hcoords & Hid & Hmsg & Hoff & Hkeep).
    repeat split; try done.
    assert (Heq : bool_decide (Home.retryCount before < Home.maxRetries)%nat =
                  bool_decide (length (filter calls_for_retry events) < 2)%nat).
    { apply bool_decide_ext. unfold Home.maxRetries in *. lia. }
    rewrite Heq in Hoff, Hkeep.
    destruct (calls_for_retry (Failure error) && _); auto.
Qed.

(** ** The address form *)


(** ** The theme *)

(** X18: the theme that the effect stored is the theme the next load
    starts with, whatever the system prefers, and the class of the
    document element follows it; with nothing stored, or the empty
    string, the load follows the system's preference. *)
Theorem stored_theme_is_restored (darkMode : bool) (browser : Theme.Browser) :
  Theme.initialDarkMode (Theme.storeTheme darkMode browser) = darkMode /\
  Theme.documentElement_dark (Theme.storeTheme darkMode browser) = darkMode /\
  (Theme.localStorage_theme browser = None \/
   Theme.localStorage_theme browser = Some "" ->
   Theme.initialDarkMode browser = Theme.prefers_color_scheme_dark browser).
Proof.
  split; [by destruct darkMode|]. split; [by destruct darkMode|].
  unfold Theme.initialDarkMode. by intros [-> | ->].
Qed.

(** ** Address components *)

Lemma truthy_number_inv x : Js.truthy_number x = true -> x <> 0.
Proof. unfold Js.truthy_number. by destruct (Req_dec_T x 0). Qed.

Lemma truthy_string_inv s : Js.truthy_string s = true -> s <> "".
Proof. unfold Js.truthy_string. by destruct (decide (s = "")). Qed.

(** What [addressInfoOf] returns, when it returns an address, has a
    city, a state code and both coordinates, and its region is the one
    of its state code. *)
Lemma addressInfoOf_Some data info :
  Home.addressInfoOf data = Js.Fulfilled (Some info) ->
  Home.AddressInfo.city info <> "" /\
  Home.AddressInfo.state info <> "" /\
  latitude (Home.AddressInfo.coordinates info) <> 0 /\
  longitude (Home.AddressInfo.coordinates info) <> 0 /\
  Home.AddressInfo.region info = Home.getRegionFromState (Home.AddressInfo.state info) /\
  (Home.AddressInfo.streetAddress info = "" \/
   exists number route,
     number <> "" /\ route <> "" /\
     Home.AddressInfo.streetAddress info = (number ++ " " ++ route)%string) /\
  exists result rest,
    Home.Geocoding.status data = "OK" /\
    Home.Geocoding.results data = result :: rest /\
    Home.AddressInfo.formattedAddress info = Home.Geocoding.formatted_address result.
Proof.
  unfold Home.addressInfoOf.
  destruct (Home.Geocoding.results data) as [|result rest]; [done|].
  destruct (bool_decide_reflect (Home.Geocoding.status data = "OK")) as [Hok|]; [|done].
  destruct (Home.Geocoding.geometry_location result ≫= Home.Geocoding.lat) as [lat|];
    cbn [Js.truthy negb orb]; [|done].
  destruct (Js.truthy_number lat) eqn:Hlat; cbn [negb orb]; [|done].
  destruct (Home.Geocoding.geometry_location result ≫= Home.Geocoding.lng) as [lng|];
    cbn [Js.truthy negb orb]; [|done].
  destruct (Js.truthy_number lng) eqn:Hlng; cbn [negb orb]; [|done].
  destruct (bool_decide _); [done|].
  set (parts := foldl Home.extractPart Home.Parts.initial _).
  destruct (if negb _ then _ else _) as [[city|]|error]; cbn [Js.truthy negb orb];
    [|done|done].
  destruct (Js.truthy_string city) eqn:Hcity; cbn [negb orb]; [|done].
  destruct (Home.Parts.stateCode parts) as [stateCode|]; cbn [Js.truthy negb]; [|done].
  destruct (Js.truthy_string stateCode) eqn:Hstate; cbn [negb]; [|done].
  intros [= <-]. cbn.
  repeat split; try (by apply truthy_number_inv); try (by apply truthy_string_inv).
  - destruct (Js.truthy_string (Home.Parts.streetNumber parts)) eqn:Hn; cbn [andb];
      [|by left].
    destruct (Js.truthy_string (Home.Parts.route parts)) eqn:Hr; [|by left].
    right. exists (Home.Parts.streetNumber parts), (Home.Parts.route parts).
    repeat split; try done; by apply truthy_string_inv.
  - by exists result, rest.
Qed.

(** X19: address information that [getAddressComponentsFromAddress]
    returns is complete: the service answered OK; city and state are
    not empty, so that the check of them that follows in
    [handleConfirmation] never fails; latitude and longitude are not
    zero; the region is the region of the state; and the street
    address is empty or a street number and a route, neither empty,
    with a blank between. *)
Theorem returned_address_info_is_complete
    (geocode : string -> option Home.Geocoding.Response) (searchAddress : string) :
  match (Home.getAddressComponentsFromAddress geocode searchAddress).1 with
  | Some info =>
      Home.AddressInfo.city info <> "" /\
      Home.AddressInfo.state info <> "" /\
      negb (Js.truthy_string (Home.AddressInfo.city info)) ||
      negb (Js.truthy_string (Home.AddressInfo.state info)) = false /\
      latitude (Home.AddressInfo.coordinates info) <> 0 /\
      longitude (Home.AddressInfo.coordinates info) <> 0 /\
      Home.AddressInfo.region info =
        Home.getRegionFromState (Home.AddressInfo.state info) /\
      (Home.AddressInfo.streetAddress info = "" \/
       exists number route,
         number <> "" /\ route <> "" /\
         Home.AddressInfo.streetAddress info = (number ++ " " ++ route)%string) /\
      exists data, geocode searchAddress = Some data /\ Home.Geocoding.status data = "OK"
  | None => True
  end.
Proof.
  unfold Home.getAddressComponentsFromAddress.
  destruct (geocode searchAddress) as [data|] eqn:Hgeo; [|done].
  destruct (Home.addressInfoOf data) as [[info|]|error] eqn:Hinfo; cbn [fst]; [|done|done].
  apply addressInfoOf_Some in Hinfo
    as (Hcity & Hstate & Hlat & Hlng & Hregion & Hstreet & result & rest & Hok & _).
  repeat split; try done.
  - unfold Js.truthy_string. by rewrite !decide_False.
  - by exists data.
Qed.

(** The answer for the street address of Philadelphia. *)
Example philadelphia_address_info :
  Home.getAddressComponentsFromAddress (fun _ => Some philadelphia_answer)
    "123 Main St, Philadelphia" =
  (Some (Home.AddressInfo.mk (mkGeoPoint 39.95 (-75.16))
           (Some "123 Main St, Philadelphia, PA 19106, USA")
           "123 Main Street" "Philadelphia" "PA" "19106" "United States"
           (Some "Northeast")),
   false).
Proof.
  unfold Home.getAddressComponentsFromAddress, Home.addressInfoOf, philadelphia_answer.
  cbn [Home.Geocoding.results Home.Geocoding.status Home.Geocoding.geometry_location
       Home.Geocoding.address_components Home.Geocoding.formatted_address
       Home.Geocoding.lat Home.Geocoding.lng mbind option_bind Js.truthy default].
  rewrite !truthy_number_true by lra.
  reflexivity.
Qed.

Lemma fallbackCity_Rejected error components :
  foldl Home.fallbackCity (Js.Rejected error) components = Js.Rejected error.
Proof. induction components as [|c cs IH]; [done|]. exact IH. Qed.

(** X20: [getAddressComponentsFromAddress] returns null, with no
    error on the console, when the answer is not OK or has no result,
    and when the latitude or the longitude of the result is missing
    or zero; it returns null after an error written to the console
    when the request throws, and when the first loop finds no city
    and the first component has no [types], on which the fallback
    loop throws. *)
Theorem address_lookup_refusals
    (geocode : string -> option Home.Geocoding.Response) (searchAddress : string) :
  let answer := Home.getAddressComponentsFromAddress geocode searchAddress in
  (geocode searchAddress = None -> answer = (None, true)) /\
  (forall data,
      geocode searchAddress = Some data ->
      Home.Geocoding.status data <> "OK" \/ Home.Geocoding.results data = [] ->
      answer = (None, false)) /\
  (forall data result rest,
      geocode searchAddress = Some data ->
      Home.Geocoding.results data = result :: rest ->
      Home.Geocoding.geometry_location result ≫= Home.Geocoding.lat ∈ [None; Some 0] \/
      Home.Geocoding.geometry_location result ≫= Home.Geocoding.lng ∈ [None; Some 0] ->
      answer = (None, false)) /\
  (forall data result rest location lat lng component components,
      geocode searchAddress = Some data ->
      Home.Geocoding.status data = "OK" ->
      Home.Geocoding.results data = result :: rest ->
      Home.Geocoding.geometry_location result = Some location ->
      Home.Geocoding.lat location = Some lat -> lat <> 0 ->
      Home.Geocoding.lng location = Some lng -> lng <> 0 ->
      Home.Geocoding.address_components result = Some (component :: components) ->
      Home.Geocoding.types component = None ->
      Js.truthy Js.truthy_string
        (Home.Parts.city
           (foldl Home.extractPart Home.Parts.initial (component :: components))) = false ->
      answer = (None, true)).
Proof.
  cbn zeta. unfold Home.getAddressComponentsFromAddress.
  split; [by intros ->|]. split; [|split].
  - intros data -> Hbad. unfold Home.addressInfoOf.
    destruct Hbad as [Hstatus | ->]; [|done].
    destruct (Home.Geocoding.results data); [done|].
    by rewrite bool_decide_eq_false_2.
  - intros data result rest -> Hresults Hzero. unfold Home.addressInfoOf.
    rewrite Hresults. destruct (bool_decide _); [|done].
    assert (Hfalsy : forall v : option R, v ∈ [None; Some 0] ->
                                          Js.truthy Js.truthy_number v = false).
    { intros v Hv. apply elem_of_cons in Hv as [->|Hv]; [done|].
      apply list_elem_of_singleton in Hv as ->. cbn. apply truthy_number_0. }
    destruct Hzero as [Hz|Hz]; apply Hfalsy in Hz; rewrite Hz; cbn [negb orb];
      [done|by rewrite orb_true_r].
  - intros data result rest location lat lng component components
      -> Hok Hresults Hloc Hlat Hlat0 Hlng Hlng0 Hcomponents Htypes Hcity.
    unfold Home.addressInfoOf. rewrite Hresults, bool_decide_eq_true_2 by done.
    rewrite Hloc. cbn [mbind option_bind]. rewrite Hlat, Hlng.
    cbn [Js.truthy] in Hcity |- *.
    rewrite !truthy_number_true by done. cbn [negb orb].
    rewrite Hcomponents. cbn [default from_option length]. unfold Datatypes.id.
    rewrite bool_decide_eq_false_2 by done.
    rewrite Hcity. cbn [negb foldl] in Hcity |- *. unfold Home.fallbackCity at 2.
    cbn [Js.truthy]. rewrite Hcity. cbn [negb]. rewrite Htypes.
    by rewrite fallbackCity_Rejected.
Qed.

(** An answer whose only component has a name and no [types]: the
    fallback loop throws, and the lookup returns nothing after an
    error on the console. *)
Example typeless_component_is_an_error :
  Home.getAddressComponentsFromAddress
    (fun _ =>
       Some (Home.Geocoding.mkResponse "OK"
               [Home.Geocoding.mkResult
                  (Some (Home.Geocoding.mkLatLng (Some 39.95) (Some (-75.16))))
                  (Some [Home.Geocoding.mkComponent None (Some "Philadelphia")
                                                    (Some "Philadelphia")])
                  (Some "Philadelphia, PA, USA")]))
    "Philadelphia"
  = (None, true).
Proof.
  unfold Home.getAddressComponentsFromAddress, Home.addressInfoOf.
  cbn [Home.Geocoding.results Home.Geocoding.status Home.Geocoding.geometry_location
       Home.Geocoding.address_components Home.Geocoding.lat Home.Geocoding.lng
       mbind option_bind Js.truthy].
  rewrite bool_decide_eq_true_2 by done.
  rewrite !truthy_number_true by lra. reflexivity.
Qed.

(** ** The radius of the feed *)

Section SortSublist.

Context {A : Type} (key : A -> R).

Lemma sublist_insert x xs : sublist xs (Js.insert (fun a b => key a - key b) x xs).
Proof.
  induction xs as [|y ys IH]; cbn.
  - by constructor.
  - destruct (Rle_dec _ _); [by constructor|]. by constructor.
Qed.

Lemma insert_sublist x xs ys :
  StronglySorted (fun a b => key a <= key b) ys ->
  sublist xs ys ->
  sublist (Js.insert (fun a b => key a - key b) x xs)
          (Js.insert (fun a b => key a - key b) x ys).
Proof.
  intros Hsorted Hsub. induction Hsub as [|y xs ys Hsub IH|y xs ys Hsub IH].
  - done.
  - apply StronglySorted_inv in Hsorted as [Hys Hy]. cbn.
    destruct (Rle_dec _ _); [by repeat constructor|].
    constructor. by apply IH.
  - apply StronglySorted_inv in Hsorted as [Hys Hy]. cbn [Js.insert].
    destruct (Rle_dec (key x - key y) 0) as [Hle|Hgt].
    + assert (Hx : Js.insert (fun a b => key a - key b) x xs = x :: xs).
      { destruct xs as [|z xs]; [done|]. cbn.
        assert (Hz : key y <= key z).
        { rewrite Forall_forall in Hy. apply Hy.
          eapply elem_of_sublist; [|exact Hsub]. apply elem_of_cons. by left. }
        destruct (Rle_dec _ _); [done|]. lra. }
      rewrite Hx. by repeat constructor.
    + constructor. by apply IH.
Qed.

Lemma sort_sublist xs ys :
  sublist xs ys ->
  sublist (Js.sort (fun a b => key a - key b) xs)
          (Js.sort (fun a b => key a - key b) ys).
Proof.
  induction 1 as [|y xs ys Hsub IH|y xs ys Hsub IH]; cbn.
  - done.
  - apply insert_sublist; [apply sort_StronglySorted | exact IH].
  - etrans; [exact IH|]. apply sublist_insert.
Qed.

End SortSublist.

Lemma pushed_now_radius coordinates radius1 radius2 sale item :
  radius1 <= radius2 ->
  pushed_now coordinates radius1 sale = Some item ->
  pushed_now coordinates radius2 sale = Some item.
Proof.
  intros Hle. unfold pushed_now, retained_location.
  destruct (Home.Sale.location sale) as [p|]; [|done].
  destruct (Js.truthy_number (latitude p) && Js.truthy_number (longitude p));
    cbn [andb]; [|done].
  destruct (bool_decide_reflect (feed_distance coordinates p <= radius1)); [|done].
  rewrite bool_decide_eq_true_2 by lra. done.
Qed.

Lemma omap_pushed_now_sublist coordinates radius1 radius2 snapshot :
  radius1 <= radius2 ->
  sublist (omap (pushed_now coordinates radius1) snapshot)
          (omap (pushed_now coordinates radius2) snapshot).
Proof.
  intros Hle. induction snapshot as [|sale snapshot IH]; [done|].
  cbn [omap list_omap].
  destruct (pushed_now coordinates radius1 sale) as [item|] eqn:H1.
  - rewrite (pushed_now_radius _ _ _ _ _ Hle H1). by constructor.
  - destruct (pushed_now coordinates radius2 sale); [by constructor | done].
Qed.

(** X21: widening the radius keeps every listing: what the listener
    publishes for a radius is, item for item and in the same order,
    part of what it publishes for a larger radius on the same
    snapshot and location. *)
Theorem widening_the_radius_keeps_every_listing
    (coordinates : GeoPoint) (radius1 radius2 : R) (snapshot : list Home.Sale.t)
    (st1 st2 : Home.State) :
  radius1 <= radius2 ->
  sublist (Home.published (Home.listener coordinates radius1 snapshot st1))
          (Home.published (Home.listener coordinates radius2 snapshot st2)).
Proof.
  intros Hle. rewrite !listener_published.
  apply (sort_sublist Home.Item.distance). by apply omap_pushed_now_sublist.
Qed.

(** An instance: the radii 5 and 10. *)
Lemma widening_the_radius_keeps_every_listing_witness :
  sublist (Home.published (Home.listener here 5 [sale_b; sale_a] Home.initial))
          (Home.published (Home.listener here 10 [sale_b; sale_a] Home.initial)).
Proof.
  apply (widening_the_radius_keeps_every_listing
           here 5 10 [sale_b; sale_a] Home.initial Home.initial).
  lra.
Defined.

(** ** The distance shown *)

Lemma item_distance_one sale d address :
  Home.Item.distance (Home.item_for sale d address) = 1 <-> 0.95 <= d < 1.05.
Proof.
  unfold Home.item_for, Js.round. cbn [Home.Item.distance].
  destruct (base_Int_part (d * 10 + / 2)) as [Hle Hgt].
  split.
  - intros H1.
    assert (Hz : IZR (Int_part (d * 10 + / 2)) = 10) by lra. lra.
  - intros Hd. rewrite <- (Int_part_spec (d * 10 + / 2) 10); [lra|]. lra.
Qed.

(** X22: the list shows "1 mile away", in the singular, exactly for
    the listings whose distance from the tracked location is at
    least 0.95 and less than 1.05 mile; every other listing is shown
    with its rounded distance and "miles away". *)
Theorem singular_mile_is_shown_around_one_mile
    (toString : R -> string) (sale : Home.Sale.t) (d : R) (address : option string) :
  let item := Home.item_for sale d address in
  Home.memoizedSales toString [item] =
    [(item,
      if bool_decide (0.95 <= d < 1.05)
      then (toString 1 ++ " mile away")%string
      else (toString (Home.Item.distance item) ++ " miles away")%string)].
Proof.
  cbn zeta. unfold Home.memoizedSales. cbn [map].
  destruct (bool_decide_reflect (0.95 <= d < 1.05)) as [Hd|Hd].
  - apply item_distance_one with (sale := sale) (address := address) in Hd as H1.
    rewrite decide_True by done. by rewrite H1.
  - rewrite decide_False; [done|]. intros H1. apply Hd.
    by apply item_distance_one in H1.
Qed.

Lemma sends_positive_radius p registration :
  -90 <= latitude p <= 90 ->
  (forall loc, Functions.TokenData.location registration = Some loc ->
               -90 <= latitude loc <= 90) ->
  sends p registration = true ->
  exists loc radius,
    Functions.TokenData.location registration = Some loc /\
    Functions.TokenData.searchRadius registration = Some radius /\
    0 < radius /\
    Functions.calculateDistance (latitude loc) (longitude loc)
                                (latitude p) (longitude p) <= radius.
Proof.
  intros Hp Hvalid. unfold sends, passes_guard.
  destruct (Functions.TokenData.location registration) as [loc|]; [|done].
  destruct (Functions.TokenData.searchRadius registration) as [radius|]; [|done].
  cbn. unfold Js.truthy_number.
  destruct (Req_dec_T radius 0) as [|Hne]; [done|]. cbn.
  destruct (Rle_dec _ _) as [Hle|]; [|done]. intros _.
  exists loc, radius. repeat split; try done.
  pose proof (hav_range (latitude loc) (longitude loc) (latitude p) (longitude p)
                (Hvalid loc eq_refl) Hp) as Hhav.
  rewrite server_distance_hav in Hle.
  pose proof (atan2_first_quadrant
                (sqrt (hav (latitude loc) (longitude loc) (latitude p) (longitude p)))
                (sqrt (1 - hav (latitude loc) (longitude loc) (latitude p) (longitude p)))
                (sqrt_pos _) (sqrt_pos _)) as Ha.
  lra.
Qed.

(** X23: when the latitudes of the listing and of the registrations
    are valid, every message a dispatch hands out is for the token of
    a registration of the store that has a location and a radius
    greater than zero and lies at most that radius from the listing:
    a registration with a radius of zero or less never brings a
    message about. *)
Theorem every_message_is_due_to_a_positive_radius
    (toLocaleDateString : string -> string)
    (messaging : Functions.Message.t -> Js.Completion unit)
    (data : Functions.SaleData.t) (eventId : string) (p : GeoPoint)
    (w : Functions.World) :
  Functions.SaleData.location data = Some p ->
  -90 <= latitude p <= 90 ->
  (forall ref registration loc,
      Functions.tokens w !! ref = Some registration ->
      Functions.TokenData.location registration = Some loc ->
      -90 <= latitude loc <= 90) ->
  let w' := (Functions.onNewSaleEvent toLocaleDateString messaging data eventId w).2 in
  Forall (fun message =>
            exists ref registration loc radius,
              Functions.tokens w !! ref = Some registration /\
              Functions.Message.token message = Functions.TokenData.token registration /\
              Functions.TokenData.location registration = Some loc /\
              Functions.TokenData.searchRadius registration = Some radius /\
              0 < radius /\
              Functions.calculateDistance (latitude loc) (longitude loc)
                                          (latitude p) (longitude p) <= radius)
         (drop (length (Functions.sendCalls w)) (Functions.sendCalls w')).
Proof.
  intros Hp Hlat Hvalid w'. subst w'.
  unfold Functions.onNewSaleEvent, Functions.collectionGroup_tokens_get.
  unfold mbind, Functions.Async_bind.
  rewrite (fanout_located _ _ _ p) by done. cbn [snd].
  rewrite sendCalls_after_fanout, drop_app_length.
  apply Forall_forall. intros message (doc & -> & Hdoc)%list_elem_of_fmap.
  apply list_elem_of_filter in Hdoc as [Hs Hdoc]. destruct doc as [ref registration].
  apply elem_of_map_to_list in Hdoc. cbn [snd] in *.
  destruct (sends_positive_radius p registration Hlat) as (loc & radius & Hl & Hr & H0 & Hd).
  - intros loc Hloc. by eapply Hvalid.
  - by destruct (sends p registration).
  - exists ref, registration, loc, radius. repeat split; done.
Qed.

(** An instance: the store of one registration and the listing at its
    location. *)
Lemma every_message_is_due_to_a_positive_radius_witness :
  let w' :=
    (Functions.onNewSaleEvent (fun d => d) every_endpoint_invalid
       listing_located "event-1" world_1).2 in
  Forall (fun message =>
            exists ref registration loc radius,
              Functions.tokens world_1 !! ref = Some registration /\
              Functions.Message.token message = Functions.TokenData.token registration /\
              Functions.TokenData.location registration = Some loc /\
              Functions.TokenData.searchRadius registration = Some radius /\
              0 < radius /\
              Functions.calculateDistance (latitude loc) (longitude loc)
                (latitude (mkGeoPoint 40 (-75))) (longitude (mkGeoPoint 40 (-75)))
                <= radius)
         (drop (length (Functions.sendCalls world_1)) (Functions.sendCalls w')).
Proof.
  apply (every_message_is_due_to_a_positive_radius
           (fun d => d) every_endpoint_invalid listing_located "event-1"
           (mkGeoPoint 40 (-75)) world_1).
  - reflexivity.
  - cbn. lra.
  - intros ref registration loc Hin Hloc.
    unfold world_1 in Hin. cbn [Functions.tokens] in Hin.
    apply lookup_singleton_Some in Hin as [_ <-].
    cbn in Hloc. injection Hloc as <-. cbn. lra.
Defined.

(** ** The location of the browser *)

Lemma pushPart_filter acc cs :
  foldl LocationUtils.pushPart acc cs = acc ++ filter (fun s => s <> "") (omap Datatypes.id cs).
Proof.
  revert acc. induction cs as [|c cs IH]; intros acc; cbn [foldl].
  - by rewrite app_nil_r.
  - rewrite IH. destruct c as [s|]; cbn; [|done].
    unfold Js.truthy_string, filter. cbn.
    destruct (decide (s = "")) as [->|Hs]; cbn.
    + done.
    + rewrite decide_True by done. by rewrite <- app_assoc.
Qed.

Lemma concat_nonempty sep part parts : part <> "" -> String.concat sep (part :: parts) <> "".
Proof.
  intros Hpart. cbn. destruct part as [|a part]; [done|].
  by destruct parts.
Qed.

(** X24: a location that [getCurrentLocation] resolves with has the
    coordinates of the position, and its address joins, in the order
    house number, road, suburb, city or else town, state, exactly the
    values of the answer that are present and not empty; the address
    is the empty string exactly when none of them is. *)
Theorem resolved_location_lists_the_present_parts_in_order
    (reverse : R -> R -> option LocationUtils.Nominatim.Response)
    (supported : bool) (answer : nat + R * R) (location : LocationUtils.Location.t) :
  LocationUtils.getCurrentLocation reverse supported answer = inr location ->
  let raw := LocationUtils.Location.rawAddress location in
  let parts := filter (fun s => s <> "") (omap Datatypes.id (LocationUtils.candidates raw)) in
  supported = true /\
  answer = inr (LocationUtils.Location.latitude location,
                LocationUtils.Location.longitude location) /\
  reverse (LocationUtils.Location.latitude location)
          (LocationUtils.Location.longitude location)
    ≫= LocationUtils.Nominatim.address = Some raw /\
  LocationUtils.Location.address location = String.concat ", " parts /\
  (LocationUtils.Location.address location = "" <->
   Forall (fun c => Js.truthy Js.truthy_string c = false) (LocationUtils.candidates raw)).
Proof.
  unfold LocationUtils.getCurrentLocation.
  destruct supported; cbn [negb]; [|done].
  destruct answer as [code|[latitude longitude]]; [by destruct (bool_decide _)|].
  destruct (reverse latitude longitude ≫= LocationUtils.Nominatim.address)
    as [address|] eqn:Hreverse; [|done].
  intros [= <-]. cbn [LocationUtils.Location.rawAddress LocationUtils.Location.latitude
                      LocationUtils.Location.longitude LocationUtils.Location.address].
  unfold LocationUtils.locationParts. rewrite pushPart_filter, app_nil_l.
  repeat split; try done.
  - intros Hempty. apply Forall_forall. intros c Hc.
    destruct c as [s|]; [|done]. cbn. unfold Js.truthy_string.
    destruct (decide (s = "")) as [|Hs]; [done|]. exfalso.
    assert (Hin : s ∈ filter (fun s => s <> "")
                      (omap Datatypes.id (LocationUtils.candidates address))).
    { apply list_elem_of_filter. split; [done|].
      apply list_elem_of_omap. by exists (Some s). }
    destruct (filter _ _) as [|part parts] eqn:Hparts; [by apply elem_of_nil in Hin|].
    assert (Hpart : part ∈ filter (fun s => s <> "")
                      (omap Datatypes.id (LocationUtils.candidates address)))
      by (rewrite Hparts; left).
    apply list_elem_of_filter in Hpart as [Hpart _].
    by apply (concat_nonempty ", " part parts).
  - intros Hall.
    assert (Hnil : filter (fun s => s <> "")
                     (omap Datatypes.id (LocationUtils.candidates address)) = []).
    { apply filter_none. intros s (c & Hc & Hs)%list_elem_of_omap.
      destruct c as [s'|]; [|done]. injection Hs as ->.
      rewrite Forall_forall in Hall. specialize (Hall _ Hc). cbn in Hall.
      unfold Js.truthy_string in Hall. destruct (decide (s = "")) as [->|]; [|done].
      by intros ?. }
    by rewrite Hnil.
Qed.

(** An instance: a road, a town and a state. *)
Lemma resolved_location_lists_the_present_parts_in_order_witness :
  let reverse := fun _ _ : R =>
    Some (LocationUtils.Nominatim.mkResponse (Some market_street)) in
  let location :=
    LocationUtils.Location.mk 40 (-75) "Market Street, Philadelphia, Pennsylvania"
                              market_street in
  LocationUtils.getCurrentLocation reverse true (inr (40, -75)) = inr location /\
  LocationUtils.Location.address location =
    String.concat ", "
      (filter (fun s => s <> "") (omap Datatypes.id (LocationUtils.candidates market_street))).
Proof.
  cbn zeta. split; [reflexivity|].
  pose proof (resolved_location_lists_the_present_parts_in_order
                (fun _ _ => Some (LocationUtils.Nominatim.mkResponse (Some market_street)))
                true (inr (40, -75))
                (LocationUtils.Location.mk 40 (-75)
                   "Market Street, Philadelphia, Pennsylvania" market_street)
                eq_refl) as H.
  cbn zeta in H. apply H.
Defined.

(** ** Authentication *)

Section AuthFacts.

Variable fails : nat -> option string.
Variable newDate : nat -> Z.
Variable createUserWithEmailAndPassword : string -> string -> string + Auth.User.
Variable signInWithPopup : string + option Auth.User.

Lemma no_new_admin_refl users : no_new_admin users users.
Proof. by intros uid data. Qed.

Lemma no_new_admin_insert users user st :
  no_new_admin users (<[Auth.uid user := Auth.newUserDoc newDate user st]> users).
Proof.
  intros uid data Hlookup Hadmin.
  destruct (decide (Auth.uid user = uid)) as [<-|Hne].
  - rewrite lookup_insert_eq in Hlookup. injection Hlookup as <-. done.
  - by rewrite lookup_insert_ne in Hlookup.
Qed.

Lemma checkAdminStatus_users uid st :
  Auth.users (Auth.checkAdminStatus fails uid st) = Auth.users st.
Proof.
  unfold Auth.checkAdminStatus, Auth.getDoc.
  destruct (negb _); [done|].
  destruct (fails _); [done|]. by destruct (Auth.users st !! uid).
Qed.

Lemma checkAdminStatus_isAdmin uid st :
  Auth.isAdmin_state (Auth.checkAdminStatus fails uid st) = true <->
  uid <> "" /\ fails (Auth.requests st) = None /\
  exists data, Auth.users st !! uid = Some data /\ Auth.isAdmin data = Some true.
Proof.
  unfold Auth.checkAdminStatus, Auth.getDoc, Js.truthy_string.
  destruct (decide (uid = "")) as [->|Huid]; cbn [negb].
  { cbn. split; [done|]. by intros [? _]. }
  destruct (fails (Auth.requests st)) as [message|]; cbn.
  { split; [done|]. by intros (_ & ? & _). }
  destruct (Auth.users st !! uid) as [data|]; cbn.
  - split.
    + intros Hadmin. repeat split; try done. exists data. split; [done|].
      destruct (Auth.isAdmin data) as [[]|]; done.
    + intros (_ & _ & data' & [= <-] & ->). done.
  - split; [done|]. by intros (_ & _ & ? & ? & _).
Qed.

End AuthFacts.

(** X25: after [checkAdminStatus] the session is an administrator's
    exactly when the user id is not empty, the request to the store
    did not throw, and the store has a document for that id whose
    [isAdmin] is true; the check changes nothing in the store. *)
Theorem admin_status_is_read_from_the_stored_document
    (fails : nat -> option string) (uid : string) (st : Auth.State) :
  let st' := Auth.checkAdminStatus fails uid st in
  (Auth.isAdmin_state st' = true <->
   uid <> "" /\ fails (Auth.requests st) = None /\
   exists data, Auth.users st !! uid = Some data /\ Auth.isAdmin data = Some true) /\
  Auth.users st' = Auth.users st.
Proof.
  split; [apply checkAdminStatus_isAdmin | apply checkAdminStatus_users].
Qed.

(** X26: signing up and signing in with Google never make an
    administrator: every document with [isAdmin] set that the store
    has afterwards was there before, unchanged, and a session that was
    not an administrator's before [loginWithGoogle] is one afterwards
    only when the store already had such a document for the user who
    signed in. *)
Theorem signing_in_never_makes_an_administrator
    (fails : nat -> option string) (newDate : nat -> Z)
    (createUserWithEmailAndPassword : string -> string -> string + Auth.User)
    (signInWithPopup : string + option Auth.User)
    (email password : string) (st : Auth.State) :
  let signed_up :=
    (Auth.signup fails newDate createUserWithEmailAndPassword email password st).2 in
  let logged_in := (Auth.loginWithGoogle fails newDate signInWithPopup st).2 in
  no_new_admin (Auth.users st) (Auth.users signed_up) /\
  Auth.isAdmin_state signed_up = Auth.isAdmin_state st /\
  no_new_admin (Auth.users st) (Auth.users logged_in) /\
  (Auth.isAdmin_state logged_in = true ->
   Auth.isAdmin_state st = true \/
   exists user data,
     signInWithPopup = inr (Some user) /\
     Auth.users st !! Auth.uid user = Some data /\ Auth.isAdmin data = Some true).
Proof.
  cbn zeta. split; [|split; [|split]].
  - unfold Auth.signup, Auth.setDoc.
    destruct (createUserWithEmailAndPassword email password) as [message|user];
      [apply no_new_admin_refl|].
    destruct (fails (Auth.requests st)); cbn;
      [apply no_new_admin_refl | apply no_new_admin_insert].
  - unfold Auth.signup, Auth.setDoc.
    destruct (createUserWithEmailAndPassword email password) as [message|user]; [done|].
    by destruct (fails (Auth.requests st)).
  - unfold Auth.loginWithGoogle.
    destruct signInWithPopup as [message|[user|]]; try apply no_new_admin_refl.
    unfold Auth.getDoc at 1. cbn [Auth.requests Auth.setLoading Auth.setError Auth.users].
    destruct (fails (Auth.requests st)); [apply no_new_admin_refl|].
    destruct (Auth.users st !! Auth.uid user) as [data|].
    + cbn [snd Auth.setLoading Auth.users]. rewrite checkAdminStatus_users.
      apply no_new_admin_refl.
    + unfold Auth.setDoc. cbn [Auth.requests].
      destruct (fails (S (Auth.requests st))); [apply no_new_admin_refl|].
      cbn [snd Auth.setLoading Auth.users]. rewrite checkAdminStatus_users.
      cbn [Auth.users]. apply no_new_admin_insert.
  - unfold Auth.loginWithGoogle.
    destruct signInWithPopup as [message|[user|]]; [by left|..|by left].
    unfold Auth.getDoc at 1. cbn [Auth.requests Auth.setLoading Auth.setError Auth.users].
    destruct (fails (Auth.requests st)); [by left|].
    destruct (Auth.users st !! Auth.uid user) as [data|] eqn:Hdata.
    + cbn [snd Auth.setLoading Auth.isAdmin_state].
      intros (_ & _ & data' & Hlookup & Hadmin)%checkAdminStatus_isAdmin.
      cbn [Auth.users] in Hlookup. right. exists user, data'.
      rewrite <- Hlookup, Hdata. done.
    + unfold Auth.setDoc. cbn [Auth.requests].
      destruct (fails (S (Auth.requests st))); [by left|].
      cbn [snd Auth.setLoading Auth.isAdmin_state].
      intros (_ & _ & data' & Hlookup & Hadmin)%checkAdminStatus_isAdmin.
      cbn [Auth.users] in Hlookup. rewrite lookup_insert_eq in Hlookup.
      injection Hlookup as <-. done.
Qed.

(** X27: [loginWithGoogle] ends with [loading] off whatever happens,
    and the error of the state afterwards is the message of what it
    threw, or null when it returned. *)
Theorem google_sign_in_stops_loading_and_keeps_its_error
    (fails : nat -> option string) (newDate : nat -> Z)
    (signInWithPopup : string + option Auth.User) (st : Auth.State) :
  let outcome := Auth.loginWithGoogle fails newDate signInWithPopup st in
  Auth.loading outcome.2 = false /\
  Auth.renders_children outcome.2 = true /\
  Auth.error outcome.2 =
    match outcome.1 with
    | inl message => Some message
    | inr _ => None
    end /\
  Auth.currentUser outcome.2 = Auth.currentUser st.
Proof.
  assert (Hcheck : forall uid st',
             Auth.error (Auth.checkAdminStatus fails uid st') = Auth.error st' /\
             Auth.currentUser (Auth.checkAdminStatus fails uid st') = Auth.currentUser st').
  { intros uid st'. unfold Auth.checkAdminStatus, Auth.getDoc.
    destruct (negb _); [done|]. destruct (fails _); [done|].
    by destruct (Auth.users st' !! uid). }
  cbn zeta.
  unfold Auth.renders_children, Auth.loginWithGoogle, Auth.getDoc, Auth.setDoc,
    Auth.loginWithGoogle_catch.
  destruct signInWithPopup as [message|[user|]]; [done| |done].
  cbn [Auth.requests Auth.setLoading Auth.setError Auth.users].
  destruct (fails (Auth.requests st)); [done|].
  destruct (Auth.users st !! Auth.uid user) as [data|].
  - cbn [fst snd Auth.setLoading Auth.loading Auth.error Auth.currentUser negb].
    rewrite (proj1 (Hcheck _ _)), (proj2 (Hcheck _ _)). done.
  - cbn [Auth.requests]. destruct (fails (S (Auth.requests st))); [done|].
    cbn [fst snd Auth.setLoading Auth.loading Auth.error Auth.currentUser negb].
    rewrite (proj1 (Hcheck _ _)), (proj2 (Hcheck _ _)). done.
Qed.

(** The stored administrator who signs in with Google has an
    administrator's session; a user the store does not know gets a
    document and no such session. *)
Example google_sign_in_of_administrator_and_of_newcomer :
  let fails := fun _ : nat => None in
  let newDate := fun _ : nat => 0%Z in
  Auth.isAdmin_state
    (Auth.loginWithGoogle fails newDate
       (inr (Some (Auth.mkUser "u1" (Some "admin@example.org"))))
       (Auth.initial users_1)).2 = true /\
  Auth.isAdmin_state
    (Auth.loginWithGoogle fails newDate
       (inr (Some (Auth.mkUser "u2" (Some "new@example.org"))))
       (Auth.initial users_1)).2 = false /\
  Auth.users
    (Auth.loginWithGoogle fails newDate
       (inr (Some (Auth.mkUser "u2" (Some "new@example.org"))))
       (Auth.initial users_1)).2 !! "u2"
  = Some (Auth.mkUserDoc (Some "new@example.org") (Some false) 0).
Proof. cbn zeta. repeat split; vm_compute; reflexivity. Qed.
